(** * Scheduler microservice: the scheduling engine of [scheduler.service.ts]

    A shallow embedding of the job scheduler (due-job selection, dispatch
    through the executor factory, write-back of [lastRun]/[nextRun] and the
    next-run table) together with the two [JobFactory] variants of the
    repository, and the properties of the design document checked on it.

    Conventions.
    - An instant is the time value of a JavaScript [Date]: milliseconds since
      the epoch, an integer.  All time values are taken inside the range of
      [Date] (8.64e15 ms either side of the epoch), where [TimeClip] is the
      identity, so they are modelled by [Z].
    - Local time is UTC plus a fixed offset [tz] (milliseconds); zones with
      daylight-saving transitions are outside the model.
    - Strings are sequences of 8-bit characters; [toLowerCase] folds the
      letters A-Z only. *)

From Stdlib Require Import ZArith List String Ascii Bool Lia.
Import ListNotations.

Local Open Scope string_scope.
Local Open Scope Z_scope.

(* ================================================================== *)
(** ** Dates: the part of the ECMAScript [Date] object the code uses *)
(* ================================================================== *)

Module JSDate.

Definition msPerSecond : Z := 1000.
Definition msPerMinute : Z := 60000.
Definition msPerHour : Z := 3600000.
Definition msPerDay : Z := 86400000.

(** Day number and time within the day (ECMAScript [Day], [TimeWithinDay]). *)
Definition Day (t : Z) : Z := t / msPerDay.
Definition TimeWithinDay (t : Z) : Z := t mod msPerDay.

Definition HourFromTime (t : Z) : Z := (t / msPerHour) mod 24.
Definition MinFromTime (t : Z) : Z := (t / msPerMinute) mod 60.

(** Day of the week, 0 = Sunday; day 0 (1 January 1970) is a Thursday. *)
Definition WeekDay (t : Z) : Z := (Day t + 4) mod 7.

(** Proleptic Gregorian calendar: day number to (year, month, date) with
    the month counted from 0 (January) as [getMonth] does, and back.
    The computation works in 400-year eras of 146097 days with the year
    starting on 1 March. *)
Definition civilFromDays (z0 : Z) : Z * Z * Z :=
  let z := z0 + 719468 in
  let era := z / 146097 in
  let doe := z mod 146097 in
  let yoe := (doe - doe / 1460 + doe / 36524 - doe / 146096) / 365 in
  let doy := doe - (365 * yoe + yoe / 4 - yoe / 100) in
  let mp := (5 * doy + 2) / 153 in
  let d := doy - (153 * mp + 2) / 5 + 1 in
  let m := if mp <? 10 then mp + 2 else mp - 10 in
  let y := yoe + era * 400 + (if m <=? 1 then 1 else 0) in
  (y, m, d).

Definition daysFromCivil (y m d : Z) : Z :=
  let y' := if m <=? 1 then y - 1 else y in
  let era := y' / 400 in
  let yoe := y' mod 400 in
  let mp := if 2 <=? m then m - 2 else m + 10 in
  let doy := (153 * mp + 2) / 5 + d - 1 in
  let doe := yoe * 365 + yoe / 4 - yoe / 100 + doy in
  era * 146097 + doe - 719468.

Definition YearFromTime (t : Z) : Z := fst (fst (civilFromDays (Day t))).
Definition MonthFromTime (t : Z) : Z := snd (fst (civilFromDays (Day t))).
Definition DateFromTime (t : Z) : Z := snd (civilFromDays (Day t)).

(** ECMAScript [MakeTime], [MakeDay], [MakeDate].  [MakeDay] finds the
    first day of the (normalised) month and adds [date - 1], so a date
    past the end of the month rolls over into the next one. *)
Definition MakeTime (hour min sec ms : Z) : Z :=
  hour * msPerHour + min * msPerMinute + sec * msPerSecond + ms.

Definition MakeDay (year month date : Z) : Z :=
  daysFromCivil (year + month / 12) (month mod 12) 1 + date - 1.

Definition MakeDate (day time : Z) : Z := day * msPerDay + time.

Section LocalZone.
(** Offset of local time from UTC, in milliseconds.  The offset is one
    constant: what is proved through [LocalTime] is proved for a process
    whose zone has no daylight-saving transitions (UTC, for one). *)
Variable tz : Z.

Definition LocalTime (t : Z) : Z := t + tz.
Definition UTC (l : Z) : Z := l - tz.

Definition getTime (t : Z) : Z := t.
Definition getHours (t : Z) : Z := HourFromTime (LocalTime t).
Definition getDate (t : Z) : Z := DateFromTime (LocalTime t).

(** [d.setHours(h, m, s, ms)]: same local day, new time within it. *)
Definition setHours (t : Z) (hour min sec ms : Z) : Z :=
  UTC (MakeDate (Day (LocalTime t)) (MakeTime hour min sec ms)).

(** [d.setDate(dt)]: same local year, month and time of day, new date. *)
Definition setDate (t : Z) (dt : Z) : Z :=
  let l := LocalTime t in
  UTC (MakeDate (MakeDay (YearFromTime l) (MonthFromTime l) dt)
                (TimeWithinDay l)).

(** The instant at which local day [day] shows [hour]:[min]. *)
Definition atLocal (day hour min : Z) : Z :=
  UTC (MakeDate day (MakeTime hour min 0 0)).
End LocalZone.

End JSDate.

(* ================================================================== *)
(** ** Strings: the [String.prototype] methods the factories use *)
(* ================================================================== *)

Module JSString.

Definition lowerChar (c : ascii) : ascii :=
  let n := nat_of_ascii c in
  if (Nat.leb 65 n && Nat.leb n 90)%bool then ascii_of_nat (n + 32) else c.

Fixpoint toLowerCase (s : string) : string :=
  match s with
  | EmptyString => EmptyString
  | String c s' => String (lowerChar c) (toLowerCase s')
  end.

(** [s.includes(needle)]: [needle] occurs somewhere in [s]. *)
Definition includes (s needle : string) : bool :=
  match String.index 0 needle s with
  | Some _ => true
  | None => false
  end.

End JSString.

(* ================================================================== *)
(** ** Completions, promises and executors *)
(* ================================================================== *)

(** Result of a synchronous call: a value, or a thrown error. *)
Inductive Completion (A : Type) : Type :=
| Normal (a : A)
| Throw (message : string).
Arguments Normal {A} a.
Arguments Throw {A} message.

(** What becomes of the promise returned by [execute]: fulfilled or rejected
    after some time, or never settled. *)
Inductive Settlement : Type :=
| Fulfilled (elapsed : Z)
| Rejected (elapsed : Z) (message : string)
| NeverSettles.

(** Result of awaiting an [async] function of the scheduler: it runs to its
    end, or stays suspended for ever at an [await]; both carry the state
    reached. *)
Inductive Async (A : Type) : Type :=
| Resolved (a : A)
| Suspended (a : A).
Arguments Resolved {A} a.
Arguments Suspended {A} a.

(** [job-executor.interface.ts]: every job implements [execute]. *)
Record JobExecutor : Type := { execute : Z -> string -> Settlement }.

(** [jobs/email-job.ts]: two console lines around a 2000 ms timer; the
    promise is fulfilled when the timer fires and is never rejected. *)
Definition EmailJob : JobExecutor :=
  {| execute := fun _ _ => Fulfilled 2000 |}.

(** [job-factory.ts], the factory [scheduler.service.ts] imports. *)
Module JobFactory.
Import JSString.

Definition createJob (jobName : string) : Completion JobExecutor :=
  let name := toLowerCase jobName in
  if (includes name "email" ||
      includes name "notification" ||
      includes name "send")%bool
  then Normal EmailJob
  else Normal EmailJob.
End JobFactory.

(** The second [JobFactory] of the repository (only the keyword "email",
    anything else is an error). *)
Module JobFactoryStrict.
Import JSString.

Definition createJob (jobName : string) : Completion JobExecutor :=
  if includes (toLowerCase jobName) "email"
  then Normal EmailJob
  else Throw ("Unknown job name: " ++ jobName).
End JobFactoryStrict.

(* ================================================================== *)
(** ** The job table *)
(* ================================================================== *)

(** A row of table [jobs] (Prisma model [Job]). *)
Record Job : Type := mkJob {
  id : Z;
  name : string;
  description : option string;
  schedule : string;
  isActive : bool;
  lastRun : option Z;
  nextRun : option Z;
  createdAt : Z;
  updatedAt : Z
}.

Module Prisma.

(** [job.findMany({ where: { isActive: true } })]. *)
Definition findManyActive (rows : list Job) : list Job :=
  filter isActive rows.

(** The row after [update] with [data: { lastRun, nextRun }]: only these
    two columns are written; [updatedAt] is maintained by the store. *)
Definition setRunTimestamps (lastRun' nextRun' now : Z) (j : Job) : Job :=
  mkJob (id j) (name j) (description j) (schedule j) (isActive j)
        (Some lastRun') (Some nextRun') (createdAt j) now.

(** [job.update({ where: { id }, data: { lastRun, nextRun } })]; it
    throws when no row has this id.  The list keeps the written row in its
    place; the store promises no order for a later [findMany], so the
    place of a row after a write is not a fact about the code. *)
Definition update (rows : list Job) (jobId lastRun' nextRun' now : Z)
  : Completion (list Job) :=
  if existsb (fun j => id j =? jobId) rows
  then Normal (map (fun j => if id j =? jobId
                             then setRunTimestamps lastRun' nextRun' now j
                             else j) rows)
  else Throw "Record to update not found".

Definition findUnique (rows : list Job) (jobId : Z) : option Job :=
  find (fun j => id j =? jobId) rows.

End Prisma.

(* ================================================================== *)
(** ** [SchedulerService] *)
(* ================================================================== *)

(** Lines written through the service's logger. *)
Inductive LogEntry : Type :=
| LogRunning (jobId : Z) (jobName : string)
| LogCompleted (jobId : Z) (nextRun : Z)
| LogExecuteError (jobId : Z) (message : string)
| LogInvalidCron (jobId : Z) (cronExpression : string).

(** What the service acts on: the clock read by [new Date()], the job
    table behind [prisma.job], and the log.  Time passes only while an
    executor is awaited. *)
Record World : Type := mkWorld {
  clock : Z;
  table : list Job;
  logged : list LogEntry
}.

Definition advance (elapsed : Z) (w : World) : World :=
  mkWorld (clock w + elapsed) (table w) (logged w).

Definition setTable (rows : list Job) (w : World) : World :=
  mkWorld (clock w) rows (logged w).

Definition setClock (t : Z) (w : World) : World :=
  mkWorld t (table w) (logged w).

Definition say (entries : list LogEntry) (w : World) : World :=
  mkWorld (clock w) (table w) (logged w ++ entries).

Section SchedulerService.
Import JSDate.

(** Offset of the process's local time zone. *)
Variable tz : Z.
(** [cron.validate] of the node-cron package, which is not part of the
    repository; the caller guards it with [try]/[catch]. *)
Variable cron_validate : string -> Completion bool.
(** The [JobFactory.createJob] in use. *)
Variable createJob : string -> Completion JobExecutor.

(** [(now - lastRun) / 1000 / 60 >= 1].  The operands are integers and
    60000 / 1000 / 60 is exactly 1, so in double arithmetic, where
    division is monotone, the test holds exactly from 60000 ms on. *)
Definition shouldRunBasedOnCron (lastRun now : Z) (cronExpression : string)
  : bool :=
  60 * 1000 <=? getTime now - getTime lastRun.

Definition shouldJobRun (job : Job) (now : Z) : bool :=
  match lastRun job with
  | None => true
  | Some last =>
      if match nextRun job with
         | Some next => next <=? now
         | None => false
         end
      then true
      else
        let cronExpression := schedule job in
        match cron_validate cronExpression with
        | Normal true => shouldRunBasedOnCron last now cronExpression
        | Normal false => false
        | Throw _ => false
        end
  end.

(** The error line [shouldJobRun] logs when [cron.validate] throws. *)
Definition shouldJobRunLog (job : Job) (now : Z) : list LogEntry :=
  match lastRun job with
  | None => []
  | Some _ =>
      if match nextRun job with
         | Some next => next <=? now
         | None => false
         end
      then []
      else match cron_validate (schedule job) with
           | Throw _ => [LogInvalidCron (id job) (schedule job)]
           | Normal _ => []
           end
  end.

(** [calculateNextRun]; [now] is the clock it reads on entry. *)
Definition calculateNextRun (cronExpression : string) (now : Z) : Z :=
  if String.eqb cronExpression "* * * * *" then
    getTime now + 60 * 1000
  else if String.eqb cronExpression "0 * * * *" then
    getTime now + 60 * 60 * 1000
  else if String.eqb cronExpression "0 0 * * *" then
    let tomorrow := now in
    let tomorrow := setDate tz tomorrow (getDate tz tomorrow + 1) in
    let tomorrow := setHours tz tomorrow 0 0 0 0 in
    tomorrow
  else if String.eqb cronExpression "0 9 * * *" then
    let next9AM := now in
    let next9AM := setHours tz next9AM 9 0 0 0 in
    if 9 <=? getHours tz now
    then setDate tz next9AM (getDate tz next9AM + 1)
    else next9AM
  else
    getTime now + 60 * 60 * 1000.

(** [executeJob]: everything is inside one [try]; the [catch] logs and
    returns.  An executor whose promise never settles leaves the call
    suspended at its [await]. *)
Definition executeJob (w : World) (jobId : Z) (jobName schedule : string)
  : Async World :=
  let startTime := clock w in
  match createJob jobName with
  | Throw e => Resolved (say [LogExecuteError jobId e] w)
  | Normal jobExecutor =>
      match execute jobExecutor jobId jobName with
      | NeverSettles => Suspended w
      | Rejected elapsed e =>
          Resolved (say [LogExecuteError jobId e] (advance elapsed w))
      | Fulfilled elapsed =>
          let w := advance elapsed w in
          let nextRun := calculateNextRun schedule (clock w) in
          match Prisma.update (table w) jobId startTime nextRun (clock w) with
          | Throw e => Resolved (say [LogExecuteError jobId e] w)
          | Normal rows =>
              Resolved (say [LogCompleted jobId nextRun] (setTable rows w))
          end
      end
  end.

(** The [for] loop of [checkAndRunJobs] over the rows fetched at the start
    of the tick, with [now] read once before the loop. *)
Fixpoint runJobs (jobs : list Job) (now : Z) (w : World) : Async World :=
  match jobs with
  | [] => Resolved w
  | job :: rest =>
      let shouldRun := shouldJobRun job now in
      let w := say (shouldJobRunLog job now) w in
      if shouldRun then
        let w := say [LogRunning (id job) (name job)] w in
        match executeJob w (id job) (name job) (schedule job) with
        | Resolved w' => runJobs rest now w'
        | Suspended w' => Suspended w'
        end
      else runJobs rest now w
  end.

(** [checkAndRunJobs].  The query is taken to succeed, and nothing below
    it throws, so the outer [catch] is not entered. *)
Definition checkAndRunJobs (w : World) : Async World :=
  let jobs := Prisma.findManyActive (table w) in
  let now := clock w in
  runJobs jobs now w.

(** One firing of the every-minute timer of [startScheduler] at time [t]. *)
Definition tick (t : Z) (w : World) : Async World :=
  checkAndRunJobs (setClock t w).

End SchedulerService.

(** What the executor invocation of [executeJob] comes to: the factory call
    followed by [execute]; a factory that throws counts as a rejection. *)
Definition invocation (createJob : string -> Completion JobExecutor)
    (jobId : Z) (jobName : string) : Settlement :=
  match createJob jobName with
  | Throw e => Rejected 0 e
  | Normal jobExecutor => execute jobExecutor jobId jobName
  end.

(** The columns the scheduler never writes. *)
Definition sameDefinition (j j' : Job) : Prop :=
  id j' = id j /\ name j' = name j /\ description j' = description j /\
  schedule j' = schedule j /\ isActive j' = isActive j /\
  createdAt j' = createdAt j.

(** A row as the scheduler may leave it: untouched when its id is not the
    one written, and with its definition intact in any case. *)
Definition writtenOnly (jobId : Z) (j j' : Job) : Prop :=
  sameDefinition j j' /\ (id j <> jobId -> j' = j).

(** The expressions [calculateNextRun] has a branch for. *)
Definition recognisedPatterns : list string :=
  ["* * * * *"; "0 * * * *"; "0 0 * * *"; "0 9 * * *"].

(** The jobs for which a tick logged "Running job". *)
Definition dispatched (w : World) : list Z :=
  flat_map (fun e => match e with
                     | LogRunning jobId _ => [jobId]
                     | _ => []
                     end) (logged w).

Definition worldOf {A} (r : Async A) : A :=
  match r with Resolved a => a | Suspended a => a end.

(* ================================================================== *)
(** ** The Cron Evaluator of the design document *)
(* ================================================================== *)

(** The repository has no evaluator of cron expressions (it compares the
    expression with four literals); the properties that speak of [matches]
    are stated against the evaluator the design document describes. *)
Module CronEvaluator.
Import JSDate JSString.

(** Modelled from the spec: a field is "any" or a list of literals. *)
Inductive CronField : Type :=
| Any
| OneOf (values : list Z).

(** Modelled from the spec: the five fields of an expression. *)
Record CronExpression : Type := mkCron {
  minuteField : CronField;
  hourField : CronField;
  dayOfMonthField : CronField;
  monthField : CronField;
  dayOfWeekField : CronField
}.

(** The pieces of [s] between occurrences of the character [sep]. *)
Fixpoint splitOn (sep : ascii) (s : string) : list string :=
  match s with
  | EmptyString => [EmptyString]
  | String c s' =>
      if Ascii.eqb c sep then EmptyString :: splitOn sep s'
      else match splitOn sep s' with
           | [] => [String c EmptyString]
           | w :: ws => String c w :: ws
           end
  end.

Definition digit (c : ascii) : option Z :=
  let n := Z.of_nat (nat_of_ascii c) in
  if (48 <=? n) && (n <=? 57) then Some (n - 48) else None.

Fixpoint parseDigits (acc : Z) (s : string) : option Z :=
  match s with
  | EmptyString => Some acc
  | String c s' =>
      match digit c with
      | Some d => parseDigits (10 * acc + d) s'
      | None => None
      end
  end.

Definition parseLiteral (s : string) : option Z :=
  match s with
  | EmptyString => None
  | _ => parseDigits 0 s
  end.

Fixpoint parseLiterals (ws : list string) : option (list Z) :=
  match ws with
  | [] => Some []
  | w :: ws' =>
      match parseLiteral w, parseLiterals ws' with
      | Some v, Some vs => Some (v :: vs)
      | _, _ => None
      end
  end.

(** Modelled from the spec: a field is [*], a literal or a comma-separated
    list of literals (section 4.1; parsing of cron fields is missing from
    the repository). *)
Definition parseField (s : string) : option CronField :=
  if String.eqb s "*" then Some Any
  else option_map OneOf (parseLiterals (splitOn "," s)).

(** Modelled from the spec: five space-separated fields, minute, hour,
    day-of-month, month, day-of-week (section 3; missing from the
    repository). *)
Definition parse (expression : string) : option CronExpression :=
  match map parseField (splitOn " " expression) with
  | [Some mi; Some h; Some dom; Some mon; Some dow] =>
      Some (mkCron mi h dom mon dow)
  | _ => None
  end.

Definition inRange (lo hi : Z) (f : CronField) : bool :=
  match f with
  | Any => true
  | OneOf vs => forallb (fun v => (lo <=? v) && (v <=? hi)) vs
  end.

(** Modelled from the spec: [validate] is false for malformed field
    counts or out-of-range literals (minute 0-59, hour 0-23, day-of-month
    1-31, month 1-12, day-of-week 0-6) and never raises (section 4.1;
    missing from the repository). *)
Definition validate (expression : string) : bool :=
  match parse expression with
  | Some e =>
      inRange 0 59 (minuteField e) && inRange 0 23 (hourField e) &&
      inRange 1 31 (dayOfMonthField e) && inRange 1 12 (monthField e) &&
      inRange 0 6 (dayOfWeekField e)
  | None => false
  end.

(** Modelled from the spec: a field matches a component when it is [*] or
    lists the component's value. *)
Definition fieldMatches (f : CronField) (v : Z) : bool :=
  match f with
  | Any => true
  | OneOf vs => existsb (Z.eqb v) vs
  end.

(** Modelled from the spec: when day-of-month and day-of-week are both
    restricted, either one suffices. *)
Definition dayMatches (dom dow : CronField) (l : Z) : bool :=
  match dom, dow with
  | OneOf _, OneOf _ =>
      fieldMatches dom (DateFromTime l) || fieldMatches dow (WeekDay l)
  | _, _ =>
      fieldMatches dom (DateFromTime l) && fieldMatches dow (WeekDay l)
  end.

(** Modelled from the spec: [matches] is true iff all five fields match
    the components of the instant (in local time, at minute resolution),
    with the either-or rule for the two day fields (section 4.1; missing
    from the repository). *)
Definition matches (tz : Z) (expression : string) (instant : Z) : bool :=
  match parse expression with
  | Some e =>
      let l := LocalTime tz instant in
      fieldMatches (minuteField e) (MinFromTime l) &&
      fieldMatches (hourField e) (HourFromTime l) &&
      fieldMatches (monthField e) (MonthFromTime l + 1) &&
      dayMatches (dayOfMonthField e) (dayOfWeekField e) l
  | None => false
  end.

(** Modelled from the spec: an instant at the start of a local minute
    (of a local hour). *)
Definition minuteAligned (tz : Z) (instant : Z) : Prop :=
  LocalTime tz instant mod msPerMinute = 0.

Definition hourAligned (tz : Z) (instant : Z) : Prop :=
  LocalTime tz instant mod msPerHour = 0.

(** Modelled from the spec: [r] is [nextOccurrence(expression, after)],
    the earliest minute-aligned instant strictly after [after] that
    satisfies [matches] (section 4.1; missing from the repository). *)
Definition isNextOccurrence (tz : Z) (expression : string) (after r : Z)
  : Prop :=
  after < r /\
  minuteAligned tz r /\
  matches tz expression r = true /\
  forall u, minuteAligned tz u -> after < u < r ->
            matches tz expression u = false.

End CronEvaluator.


(* ================================================================== *)
(** ** The jobs API: [jobs.service.ts] *)
(* ================================================================== *)

(** The database behind [prisma.job]: the rows of table [jobs] in the
    order the queries return them, and the value the [SERIAL] column [id]
    takes next. *)
Record Database : Type := mkDatabase {
  jobRows : list Job;
  idSequence : Z
}.

(** [dto/create-job.dto.ts]; an optional property that is absent is
    [None]. *)
Module CreateJobDto.
Record t : Type := mk {
  name : string;
  description : option string;
  schedule : string;
  isActive : option bool
}.
End CreateJobDto.

(** [dto/update-job.dto.ts]: every property is optional. *)
Module UpdateJobDto.
Record t : Type := mk {
  name : option string;
  description : option string;
  schedule : option string;
  isActive : option bool
}.
End UpdateJobDto.

(** The calls of [prisma.job] the API makes. *)
Module PrismaJob.

(** [job.create({ data })]: [id] comes from the sequence, [lastRun] and
    [nextRun] are null, [createdAt] and [updatedAt] are the current time;
    the new row is returned.  The row is put at the end of the list, but
    [findMany] has no [orderBy] and the store promises no order.  The [id]
    column is a 32-bit [SERIAL]: the model stands for a sequence that has
    not passed 2147483647. *)
Definition create (db : Database) (now : Z) (name : string)
    (description : option string) (schedule : string) (isActive : bool)
  : Job * Database :=
  let job := mkJob (idSequence db) name description schedule isActive
                   None None now now in
  (job, mkDatabase (jobRows db ++ [job]) (idSequence db + 1)).

(** [job.findMany()]. *)
Definition findMany (db : Database) : list Job := jobRows db.

(** The [data] object of an update: only the keys that are present are
    written. *)
Record JobUpdateInput : Type := mkInput {
  setName : option string;
  setDescription : option string;
  setSchedule : option string;
  setIsActive : option bool
}.

Definition orKeep {A} (given : option A) (old : A) : A :=
  match given with Some v => v | None => old end.

(** No key of the [data] object is present. *)
Definition emptyInput (data : JobUpdateInput) : bool :=
  match setName data, setDescription data, setSchedule data,
        setIsActive data with
  | None, None, None, None => true
  | _, _, _, _ => false
  end.

(** The row after an update: the keys present are written and [updatedAt]
    moves to the instant of the write; with no key present the row stays
    as it is. *)
Definition applyInput (data : JobUpdateInput) (now : Z) (j : Job) : Job :=
  mkJob (id j)
        (orKeep (setName data) (name j))
        (match setDescription data with
         | Some d => Some d
         | None => description j
         end)
        (orKeep (setSchedule data) (schedule j))
        (orKeep (setIsActive data) (isActive j))
        (lastRun j) (nextRun j) (createdAt j)
        (if emptyInput data then updatedAt j else now).

(** [job.update({ where: { id }, data })]: the updated row, or an error
    when no row has this id.  As for the write-back, the place of the row
    in the list after the write is not a fact about the code. *)
Definition update (db : Database) (jobId : Z) (data : JobUpdateInput)
    (now : Z) : Completion (Job * Database) :=
  match Prisma.findUnique (jobRows db) jobId with
  | None => Throw "Record to update not found"
  | Some j =>
      Normal (applyInput data now j,
              mkDatabase
                (map (fun r => if id r =? jobId
                               then applyInput data now r else r)
                     (jobRows db))
                (idSequence db))
  end.

(** [job.delete({ where: { id } })]: the deleted row, or an error when no
    row has this id. *)
Definition delete (db : Database) (jobId : Z) : Completion (Job * Database) :=
  match Prisma.findUnique (jobRows db) jobId with
  | None => Throw "Record to delete does not exist"
  | Some j =>
      Normal (j, mkDatabase
                   (filter (fun r => negb (id r =? jobId)) (jobRows db))
                   (idSequence db))
  end.

End PrismaJob.

Module JobsService.

(** [value || null] on an optional string: absent and empty both give
    null. *)
Definition orNull (value : option string) : option string :=
  match value with
  | Some s => if String.eqb s "" then None else Some s
  | None => None
  end.

Definition create (db : Database) (now : Z) (createJobDto : CreateJobDto.t)
  : Job * Database :=
  PrismaJob.create db now
    (CreateJobDto.name createJobDto)
    (orNull (CreateJobDto.description createJobDto))
    (CreateJobDto.schedule createJobDto)
    (match CreateJobDto.isActive createJobDto with
     | Some b => b
     | None => true
     end).

Definition findAll (db : Database) : list Job := PrismaJob.findMany db.

Definition findOne (db : Database) (jobId : Z) : option Job :=
  Prisma.findUnique (jobRows db) jobId.

Definition update (db : Database) (now : Z) (jobId : Z)
    (updateJobDto : UpdateJobDto.t) : Completion (Job * Database) :=
  let updateData :=
    PrismaJob.mkInput (UpdateJobDto.name updateJobDto)
                      (UpdateJobDto.description updateJobDto)
                      (UpdateJobDto.schedule updateJobDto)
                      (UpdateJobDto.isActive updateJobDto) in
  PrismaJob.update db jobId updateData now.

Definition remove (db : Database) (jobId : Z) : Completion (Job * Database) :=
  PrismaJob.delete db jobId.

End JobsService.

(** ** Vocabulary of the further properties *)

(** Ids are unique and all come from the sequence. *)
Definition wellFormed (db : Database) : Prop :=
  NoDup (map id (jobRows db)) /\
  Forall (fun j => id j < idSequence db) (jobRows db).

(** The jobs of a list that the selector decides due at [now]. *)
Definition dueAmong (cron_validate : string -> Completion bool)
    (now : Z) (jobs : list Job) : list Job :=
  filter (fun j => shouldJobRun cron_validate j now) jobs.

(** The rows a tick at [now] finds active and due, in query order. *)
Definition dueJobs (cron_validate : string -> Completion bool)
    (now : Z) (rows : list Job) : list Job :=
  dueAmong cron_validate now (Prisma.findManyActive rows).

(** The two run timestamps are absent together, or [lastRun] is earlier
    than [nextRun]. *)
Definition timestampsOrdered (j : Job) : Prop :=
  match lastRun j, nextRun j with
  | None, None => True
  | Some last, Some next => last < next
  | _, _ => False
  end.

Definition sumZ (l : list Z) : Z := fold_right Z.add 0 l.

(** The step of the next-run table: a minute, an hour, or a day. *)
Definition tablePeriod (cronExpression : string) : Z :=
  if String.eqb cronExpression "* * * * *" then 60000
  else if String.eqb cronExpression "0 * * * *" then 3600000
  else if String.eqb cronExpression "0 0 * * *" then 86400000
  else if String.eqb cronExpression "0 9 * * *" then 86400000
  else 3600000.

(* ================================================================== *)
(** * Properties *)
(* ================================================================== *)

(** ** Calendar arithmetic *)

Module JSDateFacts.
Import JSDate.

Create HintDb jsdate discriminated.
#[export] Hint Unfold getHours getDate getTime HourFromTime MinFromTime
  Day TimeWithinDay LocalTime UTC MakeDate MakeTime atLocal
  msPerDay msPerHour msPerMinute msPerSecond : jsdate.

(** Goals about the components of an instant: expose the divisions by the
    constant lengths of day, hour and minute, and decide what remains. *)
Ltac time_arith :=
  autounfold with jsdate in *; Z.div_mod_to_equations; lia.

Lemma yoe_bound (doe : Z) :
  0 <= doe < 146097 ->
  0 <= (doe - doe / 1460 + doe / 36524 - doe / 146096) / 365 < 400.
Proof. intros H. time_arith. Qed.

Lemma doy_bound (doe : Z) :
  0 <= doe < 146097 ->
  let yoe := (doe - doe / 1460 + doe / 36524 - doe / 146096) / 365 in
  0 <= doe - (365 * yoe + yoe / 4 - yoe / 100) <= 365.
Proof. intros H yoe. subst yoe. time_arith. Qed.

Lemma mp_bound (doy : Z) :
  0 <= doy <= 365 -> 0 <= (5 * doy + 2) / 153 <= 11.
Proof. intros H. time_arith. Qed.

(** The month a day number falls in is one of 0..11. *)
Lemma civil_month_range (z : Z) :
  0 <= snd (fst (civilFromDays z)) <= 11.
Proof.
  unfold civilFromDays. cbn [fst snd].
  set (doe := (z + 719468) mod 146097).
  assert (Hdoe : 0 <= doe < 146097) by (apply Z.mod_pos_bound; lia).
  pose proof (doy_bound doe Hdoe) as Hdoy. cbv zeta in Hdoy.
  set (doy := doe - _) in *.
  pose proof (mp_bound doy Hdoy) as Hmp.
  destruct ((5 * doy + 2) / 153 <? 10) eqn:E;
    [apply Z.ltb_lt in E | apply Z.ltb_ge in E]; lia.
Qed.

(** Converting a day number to a calendar date and back is the identity. *)
Lemma daysFromCivil_civilFromDays (z : Z) :
  let '(y, m, d) := civilFromDays z in daysFromCivil y m d = z.
Proof.
  unfold civilFromDays, daysFromCivil.
  set (doe := (z + 719468) mod 146097).
  set (era := (z + 719468) / 146097).
  assert (Hz : z + 719468 = 146097 * era + doe)
    by (apply Z.div_mod; lia).
  assert (Hdoe : 0 <= doe < 146097) by (apply Z.mod_pos_bound; lia).
  pose proof (yoe_bound doe Hdoe) as Hyoe.
  pose proof (doy_bound doe Hdoe) as Hdoy. cbv zeta in Hdoy.
  set (yoe := (doe - doe / 1460 + doe / 36524 - doe / 146096) / 365) in *.
  set (doy := doe - (365 * yoe + yoe / 4 - yoe / 100)) in *.
  pose proof (mp_bound doy Hdoy) as Hmp.
  set (mp := (5 * doy + 2) / 153) in *.
  set (m := if mp <? 10 then mp + 2 else mp - 10).
  assert (Hm : (if 2 <=? m then m - 2 else m + 10) = mp).
  { subst m. destruct (mp <? 10) eqn:E.
    - apply Z.ltb_lt in E.
      destruct (2 <=? mp + 2) eqn:E2; [lia | apply Z.leb_gt in E2; lia].
    - apply Z.ltb_ge in E.
      destruct (2 <=? mp - 10) eqn:E2; [apply Z.leb_le in E2; lia | lia]. }
  assert (Hy : (if m <=? 1
                then yoe + era * 400 + (if m <=? 1 then 1 else 0) - 1
                else yoe + era * 400 + (if m <=? 1 then 1 else 0))
               = yoe + era * 400)
    by (destruct (m <=? 1); lia).
  rewrite Hm, Hy.
  rewrite Z.div_add by lia. rewrite Z.mod_add by lia.
  rewrite (Z.div_small yoe 400) by lia.
  rewrite (Z.mod_small yoe 400) by lia.
  subst doy. lia.
Qed.

(** [MakeDay] at the date after the one a day falls on is the next day. *)
Lemma MakeDay_next (t : Z) :
  MakeDay (YearFromTime t) (MonthFromTime t) (DateFromTime t + 1)
  = Day t + 1.
Proof.
  unfold MakeDay, YearFromTime, MonthFromTime, DateFromTime.
  pose proof (civil_month_range (Day t)) as Hm.
  pose proof (daysFromCivil_civilFromDays (Day t)) as Hr.
  destruct (civilFromDays (Day t)) as [[y m] d]. cbn [fst snd] in *.
  rewrite (Z.div_small m 12) by lia.
  rewrite (Z.mod_small m 12) by lia.
  rewrite Z.add_0_r.
  unfold daysFromCivil in *. lia.
Qed.

Section LocalZone.
Variable tz : Z.

(** [d.setDate(d.getDate() + 1)] moves the instant one day on. *)
Lemma setDate_next (t : Z) :
  setDate tz t (getDate tz t + 1) = t + msPerDay.
Proof.
  unfold setDate, getDate. cbv zeta. rewrite MakeDay_next. time_arith.
Qed.

Lemma setHours_atLocal (t hour : Z) :
  setHours tz t hour 0 0 0 = atLocal tz (Day (LocalTime tz t)) hour 0.
Proof. reflexivity. Qed.

Lemma atLocal_value (day hour min : Z) :
  atLocal tz day hour min
  = day * msPerDay + hour * msPerHour + min * msPerMinute - tz.
Proof. time_arith. Qed.

Lemma Day_atLocal (day hour min : Z) :
  0 <= hour < 24 -> 0 <= min < 60 ->
  Day (LocalTime tz (atLocal tz day hour min)) = day.
Proof. intros Hh Hm. time_arith. Qed.

Lemma getHours_atLocal (day hour min : Z) :
  0 <= hour < 24 -> 0 <= min < 60 ->
  getHours tz (atLocal tz day hour min) = hour.
Proof. intros Hh Hm. time_arith. Qed.

Lemma Day_next (t : Z) :
  Day (LocalTime tz (t + msPerDay)) = Day (LocalTime tz t) + 1.
Proof. time_arith. Qed.
End LocalZone.

End JSDateFacts.

(** ** The next-run table *)

Module NextRunFacts.
Import JSDate JSDateFacts.

Section LocalZone.
Variable tz : Z.

Lemma every_minute (now : Z) :
  calculateNextRun tz "* * * * *" now = now + 60000.
Proof. reflexivity. Qed.

Lemma every_hour (now : Z) :
  calculateNextRun tz "0 * * * *" now = now + 3600000.
Proof. reflexivity. Qed.

(** "0 0 * * *": 00:00 of the local day after the one [now] is in. *)
Lemma midnight (now : Z) :
  calculateNextRun tz "0 0 * * *" now
  = atLocal tz (Day (LocalTime tz now) + 1) 0 0.
Proof.
  unfold calculateNextRun. cbn [String.eqb Ascii.eqb Bool.eqb].
  cbv zeta. rewrite setDate_next, setHours_atLocal, Day_next. reflexivity.
Qed.

(** "0 9 * * *": 09:00 of the local day of [now] before 09:00, of the
    next day from 09:00 on. *)
Lemma nine_am (now : Z) :
  calculateNextRun tz "0 9 * * *" now
  = if 9 <=? getHours tz now
    then atLocal tz (Day (LocalTime tz now) + 1) 9 0
    else atLocal tz (Day (LocalTime tz now)) 9 0.
Proof.
  unfold calculateNextRun. cbn [String.eqb Ascii.eqb Bool.eqb].
  cbv zeta. destruct (9 <=? getHours tz now); [| reflexivity].
  rewrite setDate_next, setHours_atLocal, !atLocal_value.
  unfold msPerDay. lia.
Qed.

Lemma default_branch (e : string) (now : Z) :
  ~ In e recognisedPatterns ->
  calculateNextRun tz e now = now + 3600000.
Proof.
  intros H. unfold calculateNextRun.
  destruct (String.eqb_spec e "* * * * *") as [->|_];
    [exfalso; apply H; simpl; tauto|].
  destruct (String.eqb_spec e "0 * * * *") as [->|_];
    [exfalso; apply H; simpl; tauto|].
  destruct (String.eqb_spec e "0 0 * * *") as [->|_];
    [exfalso; apply H; simpl; tauto|].
  destruct (String.eqb_spec e "0 9 * * *") as [->|_];
    [exfalso; apply H; simpl; tauto|].
  reflexivity.
Qed.

Lemma recognised_or_default (e : string) (now : Z) :
  In e recognisedPatterns \/ calculateNextRun tz e now = now + 3600000.
Proof.
  destruct (in_dec string_dec e recognisedPatterns) as [H|H];
    [left; exact H | right; apply default_branch; exact H].
Qed.

Lemma hour_lt_9 (now : Z) :
  getHours tz now < 9 ->
  now < atLocal tz (Day (LocalTime tz now)) 9 0.
Proof. intros H. time_arith. Qed.

Lemma hour_ge_9 (now : Z) :
  9 <= getHours tz now ->
  atLocal tz (Day (LocalTime tz now)) 9 0 <= now.
Proof. intros H. time_arith. Qed.


Lemma midnight_le (now : Z) :
  atLocal tz (Day (LocalTime tz now)) 0 0 <= now.
Proof. time_arith. Qed.

Lemma next_day_after (now hour : Z) :
  0 <= hour ->
  now < atLocal tz (Day (LocalTime tz now) + 1) hour 0.
Proof. intros H. time_arith. Qed.

(** Whatever the expression, the instant returned is in the future. *)
Lemma strictly_after (e : string) (now : Z) :
  now < calculateNextRun tz e now.
Proof.
  destruct (recognised_or_default e now) as [H|H]; [| lia].
  simpl in H.
  destruct H as [<-|[<-|[<-|[<-|[]]]]].
  - rewrite every_minute. lia.
  - rewrite every_hour. lia.
  - rewrite midnight. apply next_day_after. lia.
  - rewrite nine_am. destruct (9 <=? getHours tz now) eqn:E.
    + apply next_day_after. lia.
    + apply hour_lt_9. apply Z.leb_gt in E. exact E.
Qed.
End LocalZone.

End NextRunFacts.

(** ** The evaluator on the four expressions of the table *)

Module CronFacts.
Import JSDate JSDateFacts CronEvaluator NextRunFacts.

#[export] Hint Unfold minuteAligned hourAligned : jsdate.


Lemma parse_every_hour :
  parse "0 * * * *" = Some (mkCron (OneOf [0]) Any Any Any Any).
Proof. reflexivity. Qed.



Lemma not_true_false (b : bool) : (b = true -> False) -> b = false.
Proof. destruct b; intuition congruence. Qed.


Section LocalZone.
Variable tz : Z.


Lemma matches_every_hour (t : Z) :
  matches tz "0 * * * *" t = true <-> MinFromTime (LocalTime tz t) = 0.
Proof.
  unfold matches. rewrite parse_every_hour.
  cbn [minuteField hourField monthField dayOfMonthField dayOfWeekField
       fieldMatches dayMatches existsb].
  rewrite !andb_true_r, orb_false_r. apply Z.eqb_eq.
Qed.









(** Off the minute, "every minute" plus 60 s is not the start of a minute,
    so it is not an occurrence at all. *)
Lemma every_minute_unaligned (T : Z) :
  ~ minuteAligned tz T ->
  ~ isNextOccurrence tz "* * * * *" T (calculateNextRun tz "* * * * *" T).
Proof.
  intros HT (_ & Ha & _). rewrite every_minute in Ha.
  apply HT. time_arith.
Qed.

(** Off the hour, "every hour" plus 60 min is not an instant the
    expression matches at the start of a minute. *)
Lemma every_hour_unaligned (T : Z) :
  ~ hourAligned tz T ->
  ~ isNextOccurrence tz "0 * * * *" T (calculateNextRun tz "0 * * * *" T).
Proof.
  intros HT (_ & Ha & Hm & _). rewrite every_hour in Ha, Hm.
  apply matches_every_hour in Hm. apply HT. time_arith.
Qed.
End LocalZone.

End CronFacts.

(** ** The scheduler *)

Module SchedulerFacts.
Import JSDate NextRunFacts.

Lemma sameDefinition_refl (j : Job) : sameDefinition j j.
Proof. unfold sameDefinition. tauto. Qed.

Lemma sameDefinition_trans (a b c : Job) :
  sameDefinition a b -> sameDefinition b c -> sameDefinition a c.
Proof. unfold sameDefinition. intuition congruence. Qed.

Lemma Forall2_refl {A} (R : A -> A -> Prop) (l : list A) :
  (forall a, R a a) -> Forall2 R l l.
Proof. intros HR. induction l; constructor; auto. Qed.

Lemma Forall2_trans {A} (R : A -> A -> Prop) (l1 l2 l3 : list A) :
  (forall a b c, R a b -> R b c -> R a c) ->
  Forall2 R l1 l2 -> Forall2 R l2 l3 -> Forall2 R l1 l3.
Proof.
  intros HR H12. revert l3.
  induction H12; intros l3 H23; inversion H23; subst; constructor; eauto.
Qed.

Lemma update_frame (rows rows' : list Job) (jobId last next now : Z) :
  Prisma.update rows jobId last next now = Normal rows' ->
  Forall2 (writtenOnly jobId) rows rows'.
Proof.
  unfold Prisma.update.
  destruct (existsb _ rows); [| discriminate].
  intros H. injection H as <-.
  induction rows as [|j rows IH]; cbn [map]; constructor; [| exact IH].
  unfold writtenOnly.
  destruct (Z.eqb_spec (id j) jobId) as [E|E].
  - split; [| tauto]. unfold sameDefinition. cbn. tauto.
  - split; [apply sameDefinition_refl | reflexivity].
Qed.

(** Looking a row up by an id other than the one written finds it as it
    was. *)
Lemma frame_findUnique (jobId x : Z) (rows rows' : list Job) :
  Forall2 (writtenOnly jobId) rows rows' ->
  x <> jobId ->
  Prisma.findUnique rows' x = Prisma.findUnique rows x.
Proof.
  intros HF Hx. unfold Prisma.findUnique.
  induction HF as [|j j' rows rows' [Hsame Hkeep] _ IH]; [reflexivity|].
  cbn [find]. destruct Hsame as (Hid & _). rewrite Hid.
  destruct (Z.eqb_spec (id j) x) as [E|E]; [| exact IH].
  rewrite Hkeep by congruence. reflexivity.
Qed.

Lemma update_found (rows : list Job) (jobId last next now : Z) (j : Job) :
  Prisma.findUnique rows jobId = Some j ->
  exists rows',
    Prisma.update rows jobId last next now = Normal rows' /\
    Prisma.findUnique rows' jobId
    = Some (Prisma.setRunTimestamps last next now j).
Proof.
  unfold Prisma.update, Prisma.findUnique. intros Hf.
  assert (He : existsb (fun j => id j =? jobId) rows = true).
  { apply existsb_exists. exists j.
    apply find_some in Hf. exact Hf. }
  rewrite He. eexists. split; [reflexivity|].
  induction rows as [|r rows IH]; [discriminate|].
  cbn [find map] in *.
  destruct (Z.eqb_spec (id r) jobId) as [E|E].
  - injection Hf as ->. cbn [find Prisma.setRunTimestamps id].
    rewrite E, Z.eqb_refl. reflexivity.
  - cbn [find]. destruct (Z.eqb_spec (id r) jobId); [contradiction|].
    apply IH; [exact Hf|].
    apply existsb_exists. apply find_some in Hf. exists j. exact Hf.
Qed.

Section Service.
Variable tz : Z.
Variable cron_validate : string -> Completion bool.
Variable createJob : string -> Completion JobExecutor.

(** Once due, a job whose row does not change stays due. *)
Lemma shouldJobRun_monotone (job : Job) (now later : Z) :
  now <= later ->
  shouldJobRun cron_validate job now = true ->
  shouldJobRun cron_validate job later = true.
Proof.
  unfold shouldJobRun, shouldRunBasedOnCron, getTime.
  intros Hle.
  destruct (lastRun job) as [last|]; [| reflexivity].
  destruct (nextRun job) as [next|].
  - destruct (Z.leb_spec next now) as [H1|H1];
      destruct (Z.leb_spec next later) as [H2|H2];
      try reflexivity; try lia.
    destruct (cron_validate (schedule job)) as [[|]|];
      try discriminate.
    rewrite !Z.leb_le. lia.
  - destruct (cron_validate (schedule job)) as [[|]|];
      try discriminate.
    rewrite !Z.leb_le. lia.
Qed.

(** A raising invocation: the [catch] of [executeJob] logs it and the
    table is as before. *)
Lemma executeJob_raises (w : World) (jobId : Z) (jobName sched : string)
    (elapsed : Z) (e : string) :
  invocation createJob jobId jobName = Rejected elapsed e ->
  executeJob tz createJob w jobId jobName sched
  = Resolved (say [LogExecuteError jobId e] (advance elapsed w)).
Proof.
  unfold invocation, executeJob.
  destruct (createJob jobName) as [ex|msg].
  - intros ->. reflexivity.
  - intros H. injection H as <- <-.
    unfold advance. rewrite Z.add_0_r. destruct w; reflexivity.
Qed.

Lemma executeJob_never_settles (w : World) (jobId : Z)
    (jobName sched : string) :
  invocation createJob jobId jobName = NeverSettles ->
  executeJob tz createJob w jobId jobName sched = Suspended w.
Proof.
  unfold invocation, executeJob.
  destruct (createJob jobName) as [ex|msg]; [| discriminate].
  intros ->. reflexivity.
Qed.

(** Whatever happens, [executeJob] leaves every row's definition alone
    and touches no row but the job's own. *)
Lemma executeJob_frame (w : World) (jobId : Z) (jobName sched : string) :
  Forall2 (writtenOnly jobId) (table w)
          (table (worldOf (executeJob tz createJob w jobId jobName sched))).
Proof.
  assert (Hrefl : Forall2 (writtenOnly jobId) (table w) (table w)).
  { apply Forall2_refl. intros a. split;
      [apply sameDefinition_refl | reflexivity]. }
  unfold executeJob.
  destruct (createJob jobName) as [ex|msg]; [| exact Hrefl].
  destruct (execute ex jobId jobName) as [d|d msg|];
    try exact Hrefl.
  destruct (Prisma.update _ _ _ _ _) as [rows|msg] eqn:Hu;
    [| exact Hrefl].
  apply update_frame in Hu. exact Hu.
Qed.

(** A fulfilled invocation on a job that is in the table: the row gets
    the start time and the table's next run, computed at completion. *)
Lemma executeJob_fulfilled (w : World) (jobId : Z)
    (jobName sched : string) (elapsed : Z) (j : Job) :
  invocation createJob jobId jobName = Fulfilled elapsed ->
  Prisma.findUnique (table w) jobId = Some j ->
  exists w',
    executeJob tz createJob w jobId jobName sched = Resolved w' /\
    clock w' = clock w + elapsed /\
    Prisma.findUnique (table w') jobId
    = Some (Prisma.setRunTimestamps
              (clock w)
              (calculateNextRun tz sched (clock w + elapsed))
              (clock w + elapsed) j).
Proof.
  unfold invocation, executeJob. intros Hi Hf.
  destruct (createJob jobName) as [ex|msg]; [| discriminate].
  rewrite Hi. cbv zeta. cbn [advance clock table].
  destruct (update_found (table w) jobId (clock w)
              (calculateNextRun tz sched (clock w + elapsed))
              (clock w + elapsed) j Hf) as (rows' & Hu & Hf').
  rewrite Hu. eexists. split; [reflexivity|].
  cbn [say setTable clock table]. split; [reflexivity | exact Hf'].
Qed.

Lemma dispatched_say (entries : list LogEntry) (w : World) :
  dispatched (say entries w)
  = (dispatched w ++ dispatched (mkWorld 0 [] entries))%list.
Proof. unfold dispatched. cbn [say logged]. apply flat_map_app. Qed.

(** [executeJob] writes no "Running job" line. *)
Lemma executeJob_dispatched (w : World) (jobId : Z)
    (jobName sched : string) :
  dispatched (worldOf (executeJob tz createJob w jobId jobName sched))
  = dispatched w.
Proof.
  unfold executeJob.
  destruct (createJob jobName) as [ex|msg];
    [| cbn [worldOf]; rewrite dispatched_say; apply app_nil_r].
  destruct (execute ex jobId jobName) as [d|d msg|]; cbn [worldOf];
    [| rewrite dispatched_say; apply app_nil_r | reflexivity].
  cbv zeta.
  destruct (Prisma.update _ _ _ _ _); cbn [worldOf];
    rewrite dispatched_say; apply app_nil_r.
Qed.

Lemma shouldJobRunLog_dispatched (job : Job) (now : Z) (w : World) :
  dispatched (say (shouldJobRunLog cron_validate job now) w)
  = dispatched w.
Proof.
  rewrite dispatched_say. unfold shouldJobRunLog.
  destruct (lastRun job); [| apply app_nil_r].
  destruct (match nextRun job with
            | Some next => next <=? now
            | None => false
            end); [apply app_nil_r|].
  destruct (cron_validate (schedule job)); apply app_nil_r.
Qed.

(** The loop dispatches only jobs of the list it was given. *)
Lemma runJobs_dispatched_among (jobs : list Job) (now : Z) (w : World)
    (x : Z) :
  In x (dispatched (worldOf (runJobs tz cron_validate createJob
                               jobs now w))) ->
  In x (dispatched w) \/ In x (map id jobs).
Proof.
  revert w. induction jobs as [|job rest IH]; intros w; cbn [runJobs].
  - cbn [worldOf]. tauto.
  - cbv zeta. cbn [map].
    destruct (shouldJobRun cron_validate job now).
    + destruct (executeJob tz createJob _ _ _ _) as [w'|w'] eqn:He.
      * intros H. apply IH in H. destruct H as [H|H]; [| cbn [In]; tauto].
        pose proof (executeJob_dispatched
                      (say [LogRunning (id job) (name job)]
                         (say (shouldJobRunLog cron_validate job now) w))
                      (id job) (name job) (schedule job)) as Hd.
        rewrite He in Hd. cbn [worldOf] in Hd. rewrite Hd in H.
        rewrite dispatched_say, shouldJobRunLog_dispatched in H.
        apply in_app_or in H. cbn in H. cbn [In]. tauto.
      * cbn [worldOf]. intros H.
        pose proof (executeJob_dispatched
                      (say [LogRunning (id job) (name job)]
                         (say (shouldJobRunLog cron_validate job now) w))
                      (id job) (name job) (schedule job)) as Hd.
        rewrite He in Hd. cbn [worldOf] in Hd. rewrite Hd in H.
        rewrite dispatched_say, shouldJobRunLog_dispatched in H.
        apply in_app_or in H. cbn in H. cbn [In]. tauto.
    + intros H. apply IH in H.
      rewrite shouldJobRunLog_dispatched in H. cbn [In]. tauto.
Qed.

(** A tick that runs to its end has dispatched every due job. *)
Lemma runJobs_dispatches_due (jobs : list Job) (now : Z) (w w' : World) :
  runJobs tz cron_validate createJob jobs now w = Resolved w' ->
  (forall x, In x (dispatched w) -> In x (dispatched w')) /\
  (forall job, In job jobs ->
               shouldJobRun cron_validate job now = true ->
               In (id job) (dispatched w')).
Proof.
  revert w. induction jobs as [|job rest IH]; intros w; cbn [runJobs].
  - intros H. injection H as <-. split; [tauto | intros ? []].
  - cbv zeta.
    destruct (shouldJobRun cron_validate job now) eqn:Hs.
    + destruct (executeJob tz createJob _ _ _ _) as [w1|w1] eqn:He;
        [| discriminate].
      intros H. apply IH in H. destruct H as [Hold Hdue].
      pose proof (executeJob_dispatched
                    (say [LogRunning (id job) (name job)]
                       (say (shouldJobRunLog cron_validate job now) w))
                    (id job) (name job) (schedule job)) as Hd.
      rewrite He in Hd. cbn [worldOf] in Hd.
      rewrite dispatched_say, shouldJobRunLog_dispatched in Hd.
      split.
      * intros x Hx. apply Hold. rewrite Hd. apply in_or_app. tauto.
      * intros j [<-|Hj] Hj'.
        -- apply Hold. rewrite Hd. apply in_or_app. right. cbn. tauto.
        -- apply Hdue; assumption.
    + intros H. apply IH in H. destruct H as [Hold Hdue].
      rewrite shouldJobRunLog_dispatched in Hold.
      split; [exact Hold|].
      intros j [<-|Hj] Hj'; [congruence | apply Hdue; assumption].
Qed.

(** The loop leaves every row's definition as it was. *)
Lemma runJobs_frame (jobs : list Job) (now : Z) (w : World) :
  Forall2 sameDefinition (table w)
    (table (worldOf (runJobs tz cron_validate createJob jobs now w))).
Proof.
  revert w. induction jobs as [|job rest IH]; intros w; cbn [runJobs].
  - apply Forall2_refl, sameDefinition_refl.
  - cbv zeta.
    assert (Hstep : Forall2 sameDefinition (table w)
              (table (worldOf
                 (executeJob tz createJob
                    (say [LogRunning (id job) (name job)]
                       (say (shouldJobRunLog cron_validate job now) w))
                    (id job) (name job) (schedule job))))).
    { apply Forall2_impl with (R1 := writtenOnly (id job));
        [intros a b [H _]; exact H |].
      exact (executeJob_frame
               (say [LogRunning (id job) (name job)]
                  (say (shouldJobRunLog cron_validate job now) w))
               (id job) (name job) (schedule job)). }
    destruct (shouldJobRun cron_validate job now).
    + destruct (executeJob tz createJob _ _ _ _) as [w1|w1];
        cbn [worldOf] in *; [| exact Hstep].
      eapply Forall2_trans;
        [apply sameDefinition_trans | exact Hstep | apply IH].
    + apply (IH (say (shouldJobRunLog cron_validate job now) w)).
Qed.

(** Two jobs due in one tick under the factory that throws for names
    without "email": the first fails and is logged, the second is still
    run and written back (start 0, executor 2000 ms, next run 62000). *)
Example tick_two_due_one_fails :
  let report := mkJob 1 "report" None "* * * * *" true None None 0 0 in
  let mail := mkJob 2 "send email" None "* * * * *" true None None 0 0 in
  tick 0 (fun _ => Normal true) JobFactoryStrict.createJob 0
       (mkWorld 0 [report; mail] [])
  = Resolved
      (mkWorld 2000
         [report;
          mkJob 2 "send email" None "* * * * *" true
                (Some 0) (Some 62000) 0 2000]
         [LogRunning 1 "report";
          LogExecuteError 1 "Unknown job name: report";
          LogRunning 2 "send email";
          LogCompleted 2 62000]).
Proof. reflexivity. Qed.

Lemma unique_id (rows : list Job) (a b : Job) :
  NoDup (map id rows) -> In a rows -> In b rows -> id a = id b -> a = b.
Proof.
  induction rows as [|r rows IH]; intros Hnd Ha Hb Hid; [destruct Ha|].
  cbn [map] in Hnd. inversion Hnd as [|? ? Hnotin Hnd']; subst.
  destruct Ha as [<-|Ha], Hb as [<-|Hb].
  - reflexivity.
  - exfalso. apply Hnotin. rewrite Hid. apply in_map. exact Hb.
  - exfalso. apply Hnotin. rewrite <- Hid. apply in_map. exact Ha.
  - apply IH; assumption.
Qed.
End Service.

End SchedulerFacts.

(* ================================================================== *)
(** * The properties of the design document *)
(* ================================================================== *)

Import JSDate JSString JSDateFacts NextRunFacts CronFacts SchedulerFacts.

(** *** Write-back after a successful dispatch *)

(** C1, as stated, fails: one job "send email" with the expression
    "* * * * *" and no [lastRun], dispatched by the tick at T = 0 through
    the factory of [job-factory.ts].  The email executor takes 2000 ms and
    the next run is computed from the clock after it, so the stored
    [nextRun] is 62000, not T + 1 minute = 60000. *)
Lemma dispatch_next_run_counterexample :
  let T := 0 in
  let job := mkJob 1 "send email" None "* * * * *" true None None 0 0 in
  exists w',
    tick 0 (fun _ => Normal true) JobFactory.createJob T
         (mkWorld T [job] []) = Resolved w' /\
    option_map lastRun (Prisma.findUnique (table w') 1) = Some (Some T) /\
    option_map nextRun (Prisma.findUnique (table w') 1)
    = Some (Some 62000) /\
    option_map nextRun (Prisma.findUnique (table w') 1)
    <> Some (Some (T + 60000)).
Proof.
  cbv zeta. eexists. split; [vm_compute; reflexivity|].
  split; [reflexivity|]. split; [reflexivity|]. discriminate.
Qed.

(** C1 (amended): for every job of the table whose executor invocation is
    fulfilled after [elapsed] ms, [executeJob] started at [clock w] writes
    [lastRun] = the start time and [nextRun] = [calculateNextRun] of the
    schedule at the completion instant (start time + elapsed); for the
    expression "* * * * *" that is completion instant + 1 minute. *)
Theorem dispatch_write_back (tz : Z)
    (createJob : string -> Completion JobExecutor) (w : World)
    (jobId : Z) (jobName sched : string) (elapsed : Z) (j : Job) :
  invocation createJob jobId jobName = Fulfilled elapsed ->
  Prisma.findUnique (table w) jobId = Some j ->
  exists w' j',
    executeJob tz createJob w jobId jobName sched = Resolved w' /\
    Prisma.findUnique (table w') jobId = Some j' /\
    lastRun j' = Some (clock w) /\
    nextRun j' = Some (calculateNextRun tz sched (clock w + elapsed)) /\
    (sched = "* * * * *" ->
     nextRun j' = Some (clock w + elapsed + 60000)).
Proof.
  intros Hi Hf.
  destruct (executeJob_fulfilled tz createJob w jobId jobName sched
              elapsed j Hi Hf) as (w' & He & _ & Hf').
  exists w'. eexists. split; [exact He|]. split; [exact Hf'|].
  cbn [Prisma.setRunTimestamps lastRun nextRun].
  split; [reflexivity|]. split; [reflexivity|].
  intros ->. rewrite every_minute. reflexivity.
Qed.

Lemma dispatch_write_back_witness :
  exists w' j',
    executeJob 0 JobFactory.createJob
      (mkWorld 0 [mkJob 1 "send email" None "* * * * *" true None None 0 0]
               [])
      1 "send email" "* * * * *" = Resolved w' /\
    Prisma.findUnique (table w') 1 = Some j' /\
    lastRun j' = Some 0 /\
    nextRun j' = Some (calculateNextRun 0 "* * * * *" (0 + 2000)) /\
    ("* * * * *" = "* * * * *" -> nextRun j' = Some (0 + 2000 + 60000)).
Proof.
  apply (dispatch_write_back 0 JobFactory.createJob
           (mkWorld 0
              [mkJob 1 "send email" None "* * * * *" true None None 0 0] [])
           1 "send email" "* * * * *" 2000
           (mkJob 1 "send email" None "* * * * *" true None None 0 0));
    reflexivity.
Defined.

(** *** Next occurrence *)




(** *** Due-job selection *)

(** C3, as stated, fails: an active daily job ("0 9 * * *") last run at
    instant 0 with [nextRun] at 09:00 (32400000) is looked at one minute
    after its last run.  Its [nextRun] has not come, yet the selector
    falls back on the schedule branch and decides that it is due. *)
Lemma selector_fallback_counterexample :
  let job := mkJob 1 "daily email" None "0 9 * * *" true
                   (Some 0) (Some 32400000) 0 0 in
  let now := 60000 in
  isActive job = true /\
  lastRun job = Some 0 /\
  nextRun job = Some 32400000 /\
  now < 32400000 /\
  shouldJobRun (fun e => Normal (CronEvaluator.validate e)) job now = true.
Proof. cbv zeta. repeat split. Qed.

(** C3 (amended): for every job whose [lastRun] is present, if it is not
    the case that [nextRun] is present and now >= [nextRun], the selector
    decides from the schedule: the job is due exactly when [cron.validate]
    accepts the expression and at least one minute (60000 ms) has passed
    since [lastRun]; it is not due when the expression is rejected or
    [cron.validate] throws. *)
Theorem selector_fallback (cron_validate : string -> Completion bool)
    (job : Job) (now last : Z) :
  lastRun job = Some last ->
  (forall next, nextRun job = Some next -> now < next) ->
  shouldJobRun cron_validate job now
  = match cron_validate (schedule job) with
    | Normal true => 60000 <=? now - last
    | Normal false => false
    | Throw _ => false
    end.
Proof.
  intros Hl Hn. unfold shouldJobRun. rewrite Hl.
  destruct (nextRun job) as [next|].
  - specialize (Hn next eq_refl).
    destruct (Z.leb_spec next now); [lia | reflexivity].
  - reflexivity.
Qed.

Lemma selector_fallback_witness :
  shouldJobRun (fun e => Normal (CronEvaluator.validate e))
    (mkJob 1 "daily email" None "0 9 * * *" true
           (Some 0) (Some 32400000) 0 0) 30000
  = match Normal (CronEvaluator.validate "0 9 * * *") with
    | Normal true => 60000 <=? 30000 - 0
    | Normal false => false
    | Throw _ => false
    end.
Proof.
  apply (selector_fallback (fun e => Normal (CronEvaluator.validate e))
           (mkJob 1 "daily email" None "0 9 * * *" true
                  (Some 0) (Some 32400000) 0 0) 30000 0).
  - reflexivity.
  - intros next H. injection H as <-. lia.
Defined.

(** C9: an active job of the table whose [lastRun] is absent is among the
    rows the tick fetches and the selector decides that it is due, whatever
    its [nextRun] and its schedule. *)
Theorem first_run_is_due (cron_validate : string -> Completion bool)
    (rows : list Job) (job : Job) (now : Z) :
  In job rows ->
  isActive job = true ->
  lastRun job = None ->
  In job (Prisma.findManyActive rows) /\
  shouldJobRun cron_validate job now = true.
Proof.
  intros Hin Ha Hl. split.
  - apply filter_In. split; assumption.
  - unfold shouldJobRun. rewrite Hl. reflexivity.
Qed.

Lemma first_run_is_due_witness :
  In (mkJob 7 "backup" None "not a cron" true None (Some 99) 0 0)
     (Prisma.findManyActive
        [mkJob 7 "backup" None "not a cron" true None (Some 99) 0 0]) /\
  shouldJobRun (fun _ => Throw "bad")
    (mkJob 7 "backup" None "not a cron" true None (Some 99) 0 0) 5 = true.
Proof.
  apply (first_run_is_due (fun _ => Throw "bad")
           [mkJob 7 "backup" None "not a cron" true None (Some 99) 0 0]
           (mkJob 7 "backup" None "not a cron" true None (Some 99) 0 0) 5).
  - simpl. left. reflexivity.
  - reflexivity.
  - reflexivity.
Defined.

(** C5: a job of the table with [isActive] = false is not among the rows a
    tick fetches, and the tick logs no dispatch of it, whatever its
    [lastRun] and [nextRun] (ids are the primary key of the table). *)
Theorem inactive_never_dispatched (tz : Z)
    (cron_validate : string -> Completion bool)
    (createJob : string -> Completion JobExecutor)
    (t : Z) (w : World) (job : Job) :
  NoDup (map id (table w)) ->
  In job (table w) ->
  isActive job = false ->
  ~ In (id job) (dispatched w) ->
  ~ In job (Prisma.findManyActive (table w)) /\
  ~ In (id job)
       (dispatched (worldOf (tick tz cron_validate createJob t w))).
Proof.
  intros Hnd Hin Hoff Hbefore. split.
  - unfold Prisma.findManyActive. rewrite filter_In.
    intros [_ H]. congruence.
  - intros H. unfold tick, checkAndRunJobs in H.
    apply runJobs_dispatched_among in H.
    destruct H as [H|H]; [exact (Hbefore H)|].
    cbn [setClock table] in H.
    apply in_map_iff in H. destruct H as (j' & Hid & Hj').
    unfold Prisma.findManyActive in Hj'. apply filter_In in Hj'.
    destruct Hj' as [Hj' Hon].
    assert (j' = job) by (apply (unique_id (table w)); assumption).
    congruence.
Qed.

Lemma inactive_never_dispatched_witness :
  ~ In (mkJob 2 "send email" None "* * * * *" false None None 0 0)
       (Prisma.findManyActive
          [mkJob 1 "send email" None "* * * * *" true None None 0 0;
           mkJob 2 "send email" None "* * * * *" false None None 0 0]) /\
  ~ In 2 (dispatched (worldOf
            (tick 0 (fun _ => Normal true) JobFactory.createJob 0
               (mkWorld 0
                  [mkJob 1 "send email" None "* * * * *" true None None 0 0;
                   mkJob 2 "send email" None "* * * * *" false None None 0 0]
                  [])))).
Proof.
  apply (inactive_never_dispatched 0 (fun _ => Normal true)
           JobFactory.createJob 0
           (mkWorld 0
              [mkJob 1 "send email" None "* * * * *" true None None 0 0;
               mkJob 2 "send email" None "* * * * *" false None None 0 0]
              [])
           (mkJob 2 "send email" None "* * * * *" false None None 0 0)).
  - simpl. repeat constructor; simpl; intuition discriminate.
  - simpl. right. left. reflexivity.
  - reflexivity.
  - simpl. intros [].
Defined.

(** *** Failing executors *)

(** C4, as stated, fails: the service has no timeout.  (a) A factory that
    gives jobs without "email" in their name an executor whose promise
    never settles: the tick at 0 over two due jobs stays suspended at the
    first, and the second due job is not dispatched in that tick.  (b) An
    executor that is fulfilled only after ten minutes: no bound cuts it
    short, and the write-back sets [lastRun] and [nextRun]. *)
Lemma unsettled_executor_counterexample :
  let hanging := {| execute := fun _ _ => NeverSettles |} in
  let slow := {| execute := fun _ _ => Fulfilled 600000 |} in
  let factory := fun jobName =>
    if includes (toLowerCase jobName) "email"
    then Normal EmailJob else Normal hanging in
  let j1 := mkJob 1 "report" None "* * * * *" true None None 0 0 in
  let j2 := mkJob 2 "send email" None "* * * * *" true None None 0 0 in
  let always := fun _ : string => Normal true in
  (invocation factory 1 "report" = NeverSettles /\
   shouldJobRun always j2 0 = true /\
   tick 0 always factory 0 (mkWorld 0 [j1; j2] [])
   = Suspended (mkWorld 0 [j1; j2] [LogRunning 1 "report"]) /\
   ~ In 2 (dispatched
             (worldOf (tick 0 always factory 0 (mkWorld 0 [j1; j2] []))))) /\
  (exists w',
     tick 0 always (fun _ => Normal slow) 0 (mkWorld 0 [j1] [])
     = Resolved w' /\
     option_map lastRun (Prisma.findUnique (table w') 1) = Some (Some 0) /\
     option_map nextRun (Prisma.findUnique (table w') 1)
     = Some (Some 660000)).
Proof.
  cbv zeta. split.
  - split; [reflexivity|]. split; [reflexivity|]. split; [reflexivity|].
    vm_compute. intros [H|[]]. discriminate.
  - eexists. split; [vm_compute; reflexivity|]. split; reflexivity.
Qed.

(** C4 (amended): for every due job whose executor invocation fails by
    raising (the factory throws, or the promise of [execute] is rejected),
    the loop of the tick goes on with the remaining jobs from a state whose
    table is unchanged, so [lastRun] and [nextRun] are as before; the
    failure is logged; the job is due at every later instant as long as its
    row stays as it is; and when the rest of the tick runs to its end every
    other due job of the tick has been dispatched.  The code has no
    timeout: an invocation that never settles is not covered. *)
Theorem raising_executor_contained (tz : Z)
    (cron_validate : string -> Completion bool)
    (createJob : string -> Completion JobExecutor)
    (job : Job) (rest : list Job) (now : Z) (w : World)
    (elapsed : Z) (e : string) :
  shouldJobRun cron_validate job now = true ->
  invocation createJob (id job) (name job) = Rejected elapsed e ->
  exists w',
    runJobs tz cron_validate createJob (job :: rest) now w
    = runJobs tz cron_validate createJob rest now w' /\
    table w' = table w /\
    In (LogExecuteError (id job) e) (logged w') /\
    (forall later, now <= later ->
                   shouldJobRun cron_validate job later = true) /\
    (forall w'' other,
        runJobs tz cron_validate createJob rest now w' = Resolved w'' ->
        In other rest ->
        shouldJobRun cron_validate other now = true ->
        In (id other) (dispatched w'')).
Proof.
  intros Hdue Hfail. cbn [runJobs]. cbv zeta. rewrite Hdue.
  rewrite (executeJob_raises tz createJob _ _ _ _ elapsed e Hfail).
  eexists. split; [reflexivity|]. split; [reflexivity|].
  split; [| split].
  - cbn [say logged]. apply in_or_app. right. left. reflexivity.
  - intros later Hle.
    apply (shouldJobRun_monotone cron_validate job now later Hle Hdue).
  - intros w'' other Hrun Hin Hother.
    apply (runJobs_dispatches_due tz cron_validate createJob _ _ _ _ Hrun);
      assumption.
Qed.

Lemma raising_executor_contained_witness :
  let report := mkJob 1 "report" None "* * * * *" true None None 0 0 in
  let mail := mkJob 2 "send email" None "* * * * *" true None None 0 0 in
  let always := fun _ : string => Normal true in
  exists w',
    runJobs 0 always JobFactoryStrict.createJob [report; mail] 0
      (mkWorld 0 [report; mail] [])
    = runJobs 0 always JobFactoryStrict.createJob [mail] 0 w' /\
    table w' = table (mkWorld 0 [report; mail] []) /\
    In (LogExecuteError (id report) "Unknown job name: report")
       (logged w') /\
    (forall later, 0 <= later -> shouldJobRun always report later = true) /\
    (forall w'' other,
        runJobs 0 always JobFactoryStrict.createJob [mail] 0 w'
        = Resolved w'' ->
        In other [mail] ->
        shouldJobRun always other 0 = true ->
        In (id other) (dispatched w'')).
Proof.
  cbv zeta.
  apply (raising_executor_contained 0 (fun _ => Normal true)
           JobFactoryStrict.createJob
           (mkJob 1 "report" None "* * * * *" true None None 0 0)
           [mkJob 2 "send email" None "* * * * *" true None None 0 0] 0
           (mkWorld 0
              [mkJob 1 "report" None "* * * * *" true None None 0 0;
               mkJob 2 "send email" None "* * * * *" true None None 0 0] [])
           0 "Unknown job name: report");
    reflexivity.
Defined.

(** *** The executor factories *)

(** C6, as stated, fails on the second factory of the repository: the
    lowercase form of "Send report" contains "send", and that factory
    throws for it. *)
Lemma strict_factory_counterexample :
  includes (toLowerCase "Send report") "send" = true /\
  JobFactoryStrict.createJob "Send report"
  = Throw "Unknown job name: Send report".
Proof. split; reflexivity. Qed.

(** C6 (amended): the factory of [job-factory.ts] returns the email
    executor for every name, keyword or not, and never raises; the second
    factory returns the email executor exactly for the names whose
    lowercase form contains "email" and fails with an unknown-job-name
    error for every other name, "notification" and "send" included. *)
Theorem factories_classification (jobName : string) :
  JobFactory.createJob jobName = Normal EmailJob /\
  JobFactoryStrict.createJob jobName
  = if includes (toLowerCase jobName) "email"
    then Normal EmailJob
    else Throw ("Unknown job name: " ++ jobName).
Proof.
  split; [| reflexivity].
  unfold JobFactory.createJob. cbv zeta.
  destruct (includes (toLowerCase jobName) "email" ||
            includes (toLowerCase jobName) "notification" ||
            includes (toLowerCase jobName) "send")%bool; reflexivity.
Qed.

(** *** The next-run table *)

(** C7: for "0 9 * * *", at 08:00 of any local day the next run computed
    is 09:00 of that day, and at 10:00 it is 09:00 of the day after. *)
Theorem nine_am_scenario (tz day : Z) :
  calculateNextRun tz "0 9 * * *" (atLocal tz day 8 0)
  = atLocal tz day 9 0 /\
  calculateNextRun tz "0 9 * * *" (atLocal tz day 10 0)
  = atLocal tz (day + 1) 9 0.
Proof.
  rewrite !nine_am.
  rewrite !getHours_atLocal, !Day_atLocal by lia.
  split; reflexivity.
Qed.

(** C10: for every schedule string and every current instant,
    [calculateNextRun] returns an instant, with no error outcome, and that
    instant is strictly later than the current one; outside the four
    expressions of the table it is the current instant plus one hour. *)
Theorem next_run_total_future (tz : Z) (cronExpression : string) (now : Z) :
  (exists next, calculateNextRun tz cronExpression now = next /\ now < next)
  /\
  (In cronExpression recognisedPatterns \/
   calculateNextRun tz cronExpression now = now + 60 * 60 * 1000).
Proof.
  split.
  - eexists. split; [reflexivity | apply strictly_after].
  - apply recognised_or_default.
Qed.

(** *** The frame of the write-back *)

(** C8, as stated, fails: the row written by the tick of one job "send
    email" at clock 0 has its [updatedAt] moved from 0 to 2000, the
    instant of the write, so the write-back does not modify [lastRun] and
    [nextRun] only. *)
Lemma write_back_updatedAt_counterexample :
  let job := mkJob 1 "send email" (Some "daily") "0 9 * * *" true
                   None None 0 0 in
  exists w',
    executeJob 0 JobFactory.createJob (mkWorld 0 [job] []) 1 "send email"
      "0 9 * * *" = Resolved w' /\
    option_map updatedAt (Prisma.findUnique (table w') 1) = Some 2000 /\
    option_map updatedAt (Prisma.findUnique (table w') 1)
    <> option_map updatedAt
         (Prisma.findUnique (table (mkWorld 0 [job] [])) 1).
Proof.
  cbv zeta. eexists. split; [vm_compute; reflexivity|].
  split; [reflexivity | discriminate].
Qed.

(** C8 (amended): for every dispatch whose invocation is fulfilled, the
    write-back changes in the job's record only [lastRun], [nextRun] and
    [updatedAt] (which the store sets to the instant of the write): its
    [id], [name], [description], [schedule], [isActive] and [createdAt]
    are as before, and the record found under any other id is exactly the
    one found before. *)
Theorem write_back_columns (tz : Z)
    (createJob : string -> Completion JobExecutor) (w : World)
    (jobId : Z) (jobName sched : string) (elapsed : Z) (j : Job) :
  invocation createJob jobId jobName = Fulfilled elapsed ->
  Prisma.findUnique (table w) jobId = Some j ->
  exists w',
    executeJob tz createJob w jobId jobName sched = Resolved w' /\
    Prisma.findUnique (table w') jobId
    = Some (mkJob (id j) (name j) (description j) (schedule j) (isActive j)
                  (Some (clock w))
                  (Some (calculateNextRun tz sched (clock w + elapsed)))
                  (createdAt j) (clock w + elapsed)) /\
    forall x, x <> jobId ->
              Prisma.findUnique (table w') x = Prisma.findUnique (table w) x.
Proof.
  intros Hi Hf.
  destruct (executeJob_fulfilled tz createJob w jobId jobName sched
              elapsed j Hi Hf) as (w' & He & _ & Hf').
  exists w'. split; [exact He|]. split; [exact Hf'|].
  intros x Hx.
  pose proof (executeJob_frame tz createJob w jobId jobName sched) as H.
  rewrite He in H. cbn [worldOf] in H.
  apply (frame_findUnique jobId x _ _ H Hx).
Qed.

Lemma write_back_columns_witness :
  let mail := mkJob 1 "send email" (Some "daily") "0 9 * * *" true
                    None None 0 0 in
  let report := mkJob 2 "report" None "* * * * *" false None None 0 0 in
  exists w',
    executeJob 0 JobFactory.createJob (mkWorld 0 [mail; report] [])
      1 "send email" "0 9 * * *" = Resolved w' /\
    Prisma.findUnique (table w') 1
    = Some (mkJob (id mail) (name mail) (description mail) (schedule mail)
                  (isActive mail)
                  (Some (clock (mkWorld 0 [mail; report] [])))
                  (Some (calculateNextRun 0 "0 9 * * *"
                           (clock (mkWorld 0 [mail; report] []) + 2000)))
                  (createdAt mail)
                  (clock (mkWorld 0 [mail; report] []) + 2000)) /\
    forall x, x <> 1 ->
              Prisma.findUnique (table w') x
              = Prisma.findUnique (table (mkWorld 0 [mail; report] [])) x.
Proof.
  cbv zeta.
  apply (write_back_columns 0 JobFactory.createJob
           (mkWorld 0
              [mkJob 1 "send email" (Some "daily") "0 9 * * *" true
                     None None 0 0;
               mkJob 2 "report" None "* * * * *" false None None 0 0] [])
           1 "send email" "0 9 * * *" 2000
           (mkJob 1 "send email" (Some "daily") "0 9 * * *" true
                  None None 0 0));
    reflexivity.
Defined.

(* ================================================================== *)
(** * Further properties of the code *)
(* ================================================================== *)

(** ** More on the scheduler *)

Module TickFacts.
Import JSDate JSDateFacts NextRunFacts SchedulerFacts.

Lemma sameDefinition_lookup (rows rows' : list Job) (x : Z) :
  Forall2 sameDefinition rows rows' ->
  match Prisma.findUnique rows x, Prisma.findUnique rows' x with
  | Some j, Some j' => sameDefinition j j'
  | None, None => True
  | _, _ => False
  end.
Proof.
  intros H. unfold Prisma.findUnique.
  induction H as [|a b l l' Hab _ IH]; cbn [find]; [exact I|].
  pose proof Hab as (Hid & _). rewrite Hid.
  destruct (id a =? x); [exact Hab | exact IH].
Qed.

Lemma update_missing (rows : list Job) (jobId last next now : Z) :
  Prisma.findUnique rows jobId = None ->
  exists e, Prisma.update rows jobId last next now = Throw e.
Proof.
  unfold Prisma.findUnique, Prisma.update. intros Hf.
  assert (He : existsb (fun j => id j =? jobId) rows = false).
  { apply not_true_false. intros H. apply existsb_exists in H.
    destruct H as (j & Hin & Hj).
    pose proof (find_none _ _ Hf j Hin) as Hn. cbv beta in Hn. congruence. }
  rewrite He. eexists. reflexivity.
Qed.

Lemma update_keeps_Forall (P : Job -> Prop) (rows rows' : list Job)
    (jobId last next now : Z) :
  (forall j, P j -> P (Prisma.setRunTimestamps last next now j)) ->
  Forall P rows ->
  Prisma.update rows jobId last next now = Normal rows' ->
  Forall P rows'.
Proof.
  unfold Prisma.update. intros HP HF.
  destruct (existsb _ rows); [| discriminate].
  intros H. injection H as <-.
  induction HF as [|j rows Hj _ IH]; cbn [map]; constructor; [| exact IH].
  destruct (id j =? jobId); auto.
Qed.

(** With the factory of [job-factory.ts] every invocation is the email
    executor's: fulfilled after its 2000 ms timer. *)
Lemma shipped_invocation (jobId : Z) (jobName : string) :
  invocation JobFactory.createJob jobId jobName = Fulfilled 2000.
Proof.
  unfold invocation, JobFactory.createJob. cbv zeta.
  destruct (JSString.includes (JSString.toLowerCase jobName) "email" ||
            JSString.includes (JSString.toLowerCase jobName) "notification"
            || JSString.includes (JSString.toLowerCase jobName) "send")%bool;
    reflexivity.
Qed.

Section Service.
Variable tz : Z.
Variable cron_validate : string -> Completion bool.
Variable createJob : string -> Completion JobExecutor.

Lemma executeJob_settles (w : World) (jobId : Z) (jobName sched : string) :
  invocation createJob jobId jobName <> NeverSettles ->
  exists w', executeJob tz createJob w jobId jobName sched = Resolved w'.
Proof.
  unfold invocation, executeJob.
  destruct (createJob jobName) as [ex|msg]; [| eexists; reflexivity].
  destruct (execute ex jobId jobName) as [d|d msg|];
    [| eexists; reflexivity | congruence].
  intros _. cbv zeta.
  destruct (Prisma.update _ _ _ _ _); eexists; reflexivity.
Qed.

(** A fulfilled invocation on a job whose row is gone: the error of the
    update is caught, and only the clock and the log have moved. *)
Lemma executeJob_row_missing (w : World) (jobId : Z)
    (jobName sched : string) (elapsed : Z) :
  invocation createJob jobId jobName = Fulfilled elapsed ->
  Prisma.findUnique (table w) jobId = None ->
  exists e,
    executeJob tz createJob w jobId jobName sched
    = Resolved (say [LogExecuteError jobId e] (advance elapsed w)).
Proof.
  unfold invocation, executeJob. intros Hi Hf.
  destruct (createJob jobName) as [ex|msg]; [| discriminate].
  rewrite Hi. cbv zeta. cbn [advance clock table].
  destruct (update_missing (table w) jobId (clock w)
              (calculateNextRun tz sched (clock w + elapsed))
              (clock w + elapsed) Hf) as (e & He).
  rewrite He. exists e. reflexivity.
Qed.

Lemma executeJob_findUnique_other (w : World) (jobId x : Z)
    (jobName sched : string) :
  x <> jobId ->
  Prisma.findUnique
    (table (worldOf (executeJob tz createJob w jobId jobName sched))) x
  = Prisma.findUnique (table w) x.
Proof.
  intros Hx. apply (frame_findUnique jobId); [| exact Hx].
  apply executeJob_frame.
Qed.

(** The loop changes no row whose id is not that of a due job. *)
Lemma runJobs_untouched (jobs : list Job) (now : Z) (w : World) (x : Z) :
  ~ In x (map id (dueAmong cron_validate now jobs)) ->
  Prisma.findUnique
    (table (worldOf (runJobs tz cron_validate createJob jobs now w))) x
  = Prisma.findUnique (table w) x.
Proof.
  revert w. induction jobs as [|job rest IH]; intros w Hx;
    cbn [runJobs]; [reflexivity|].
  cbv zeta. unfold dueAmong in Hx. cbn [filter] in Hx.
  destruct (shouldJobRun cron_validate job now) eqn:Hs.
  - cbn [map In] in Hx.
    pose proof (executeJob_findUnique_other
                  (say [LogRunning (id job) (name job)]
                     (say (shouldJobRunLog cron_validate job now) w))
                  (id job) x (name job) (schedule job)) as Hstep.
    destruct (executeJob tz createJob _ _ _ _) as [w1|w1];
      cbn [worldOf] in *.
    + rewrite IH by tauto. apply Hstep. intros ->. tauto.
    + apply Hstep. intros ->. tauto.
  - rewrite IH by exact Hx. reflexivity.
Qed.

(** A loop that runs to its end has logged the due jobs, each once, in
    order. *)
Lemma runJobs_dispatched_exact (jobs : list Job) (now : Z) (w w' : World) :
  runJobs tz cron_validate createJob jobs now w = Resolved w' ->
  dispatched w' = (dispatched w ++ map id (dueAmong cron_validate now jobs))%list.
Proof.
  revert w. induction jobs as [|job rest IH]; intros w; cbn [runJobs].
  - intros H. injection H as <-. cbn. symmetry. apply app_nil_r.
  - cbv zeta. unfold dueAmong. cbn [filter].
    destruct (shouldJobRun cron_validate job now) eqn:Hs.
    + destruct (executeJob tz createJob _ _ _ _) as [w1|w1] eqn:He;
        [| discriminate].
      intros H. apply IH in H. rewrite H.
      pose proof (executeJob_dispatched tz createJob
                    (say [LogRunning (id job) (name job)]
                       (say (shouldJobRunLog cron_validate job now) w))
                    (id job) (name job) (schedule job)) as Hd.
      rewrite He in Hd. cbn [worldOf] in Hd. rewrite Hd.
      rewrite dispatched_say, shouldJobRunLog_dispatched.
      cbn [map]. rewrite <- app_assoc. reflexivity.
    + intros H. apply IH in H. rewrite H.
      rewrite shouldJobRunLog_dispatched. reflexivity.
Qed.

(** The loop runs to its end when the invocation of every due job
    settles. *)
Lemma runJobs_resolves (jobs : list Job) (now : Z) (w : World) :
  (forall j, In j (dueAmong cron_validate now jobs) ->
             invocation createJob (id j) (name j) <> NeverSettles) ->
  exists w', runJobs tz cron_validate createJob jobs now w = Resolved w'.
Proof.
  revert w. induction jobs as [|job rest IH]; intros w Hall;
    cbn [runJobs]; [eexists; reflexivity|].
  cbv zeta. unfold dueAmong in Hall. cbn [filter] in Hall.
  destruct (shouldJobRun cron_validate job now) eqn:Hs.
  - destruct (executeJob_settles
                (say [LogRunning (id job) (name job)]
                   (say (shouldJobRunLog cron_validate job now) w))
                (id job) (name job) (schedule job)) as (w1 & He).
    { apply Hall. left. reflexivity. }
    rewrite He. apply IH. intros j Hj. apply Hall. right. exact Hj.
  - apply IH. exact Hall.
Qed.

(** Jobs run one after the other: when every due job is fulfilled, each
    starts at the instant the one before it finished. *)
Lemma runJobs_sequential (dur : Job -> Z) (jobs : list Job) (now : Z)
    (w : World) :
  NoDup (map id jobs) ->
  (forall j, In j jobs ->
             exists r, Prisma.findUnique (table w) (id j) = Some r) ->
  (forall j, In j (dueAmong cron_validate now jobs) ->
             invocation createJob (id j) (name j) = Fulfilled (dur j)) ->
  exists w',
    runJobs tz cron_validate createJob jobs now w = Resolved w' /\
    clock w' = clock w + sumZ (map dur (dueAmong cron_validate now jobs)) /\
    forall k j,
      nth_error (dueAmong cron_validate now jobs) k = Some j ->
      option_map lastRun (Prisma.findUnique (table w') (id j))
      = Some (Some (clock w +
                    sumZ (map dur
                            (firstn k (dueAmong cron_validate now jobs))))).
Proof.
  revert w. induction jobs as [|job rest IH]; intros w Hnd Hrows Hful.
  - exists w. cbn. split; [reflexivity|]. split; [lia|].
    intros [|k] j H; discriminate H.
  - cbn [map] in Hnd. inversion Hnd as [|? ? Hnotin Hnd']; subst.
    cbn [runJobs]. cbv zeta. unfold dueAmong in *. cbn [filter] in *.
    destruct (shouldJobRun cron_validate job now) eqn:Hs.
    + destruct (Hrows job (or_introl eq_refl)) as (r & Hr).
      set (w0 := say [LogRunning (id job) (name job)]
                   (say (shouldJobRunLog cron_validate job now) w)).
      destruct (executeJob_fulfilled tz createJob w0 (id job) (name job)
                  (schedule job) (dur job) r
                  (Hful job (or_introl eq_refl)) Hr)
        as (w1 & He & Hclock & Hrow).
      rewrite He.
      assert (Hother : forall x, x <> id job ->
                Prisma.findUnique (table w1) x
                = Prisma.findUnique (table w) x).
      { intros x Hx.
        pose proof (executeJob_findUnique_other w0 (id job) x (name job)
                      (schedule job) Hx) as H.
        rewrite He in H. exact H. }
      destruct (IH w1 Hnd') as (w' & Hrun & Hc & Hstarts).
      { intros j Hj. rewrite Hother.
        - apply Hrows. right. exact Hj.
        - intros E. apply Hnotin. rewrite <- E. apply in_map. exact Hj. }
      { intros j Hj. apply Hful. right. exact Hj. }
      exists w'. split; [exact Hrun|]. split.
      * rewrite Hc, Hclock. cbn [map sumZ fold_right]. subst w0.
        cbn [say clock]. unfold sumZ. lia.
      * intros [|k] j Hk.
        -- cbn [nth_error] in Hk. injection Hk as <-.
           pose proof (runJobs_untouched rest now w1 (id job)) as Hu.
           rewrite Hrun in Hu. cbn [worldOf] in Hu. rewrite Hu.
           ++ rewrite Hrow. cbn. subst w0. cbn [say clock].
              rewrite Z.add_0_r. reflexivity.
           ++ intros Hin. apply Hnotin.
              apply in_map_iff in Hin. destruct Hin as (j & Hj & Hin).
              apply filter_In in Hin. rewrite <- Hj. apply in_map.
              apply Hin.
        -- cbn [nth_error] in Hk. rewrite (Hstarts k j Hk).
           rewrite Hclock. cbn [firstn map sumZ fold_right]. subst w0.
           cbn [say clock]. unfold sumZ. do 2 f_equal. lia.
    + apply (IH (say (shouldJobRunLog cron_validate job now) w) Hnd').
      * intros j Hj. apply (Hrows j). right. exact Hj.
      * exact Hful.
Qed.

(** With executors that take no negative time, the loop keeps the run
    timestamps of every row ordered. *)
Lemma executeJob_keeps_ordered (w : World) (jobId : Z)
    (jobName sched : string) :
  (forall d, invocation createJob jobId jobName = Fulfilled d -> 0 <= d) ->
  Forall timestampsOrdered (table w) ->
  Forall timestampsOrdered
    (table (worldOf (executeJob tz createJob w jobId jobName sched))).
Proof.
  unfold invocation, executeJob. intros Hd HF.
  destruct (createJob jobName) as [ex|msg]; [| exact HF].
  destruct (execute ex jobId jobName) as [d|d msg|]; try exact HF.
  cbv zeta. cbn [advance clock table].
  destruct (Prisma.update _ _ _ _ _) as [rows|msg] eqn:Hu; [| exact HF].
  cbn [worldOf say setTable table].
  apply (update_keeps_Forall timestampsOrdered _ _ _ _ _ _) with (3 := Hu);
    [| exact HF].
  intros j _. unfold timestampsOrdered.
  cbn [Prisma.setRunTimestamps lastRun nextRun].
  specialize (Hd d eq_refl).
  pose proof (strictly_after tz sched (clock w + d)). lia.
Qed.

Lemma runJobs_keeps_ordered (jobs : list Job) (now : Z) (w : World) :
  (forall jobId jobName d,
      invocation createJob jobId jobName = Fulfilled d -> 0 <= d) ->
  Forall timestampsOrdered (table w) ->
  Forall timestampsOrdered
    (table (worldOf (runJobs tz cron_validate createJob jobs now w))).
Proof.
  intros Hd. revert w. induction jobs as [|job rest IH]; intros w HF;
    cbn [runJobs]; [exact HF|].
  cbv zeta.
  pose proof (executeJob_keeps_ordered
                (say [LogRunning (id job) (name job)]
                   (say (shouldJobRunLog cron_validate job now) w))
                (id job) (name job) (schedule job)
                (Hd (id job) (name job)) HF) as Hstep.
  destruct (shouldJobRun cron_validate job now).
  - destruct (executeJob tz createJob _ _ _ _) as [w1|w1];
      cbn [worldOf] in *; [apply IH |]; exact Hstep.
  - apply (IH (say (shouldJobRunLog cron_validate job now) w)). exact HF.
Qed.
End Service.

End TickFacts.

Import TickFacts.

(** X1: in a process whose local zone is at a fixed offset from UTC (no
    daylight-saving transitions), whatever the expression and the instant,
    the next run computed is later than now and at most 24 hours ahead. *)
Theorem next_run_within_a_day (tz : Z) (cronExpression : string) (now : Z) :
  now < calculateNextRun tz cronExpression now <= now + msPerDay.
Proof.
  split; [apply strictly_after|].
  destruct (recognised_or_default tz cronExpression now) as [H|H];
    [| rewrite H; unfold msPerDay; lia].
  simpl in H. destruct H as [<-|[<-|[<-|[<-|[]]]]].
  - rewrite every_minute. unfold msPerDay. lia.
  - rewrite every_hour. unfold msPerDay. lia.
  - rewrite midnight. time_arith.
  - rewrite nine_am. destruct (9 <=? getHours tz now) eqn:E.
    + apply Z.leb_le in E. pose proof (hour_ge_9 tz now E) as Hge.
      rewrite !atLocal_value in *. unfold msPerDay in *. lia.
    + pose proof (midnight_le tz now) as Hge.
      rewrite !atLocal_value in *.
      unfold msPerDay, msPerHour, msPerMinute in *. lia.
Qed.

(** X2: in a process whose local zone is at a fixed offset from UTC (no
    daylight-saving transitions), computing the next run again from a
    computed next run moves it on
    by the fixed step of the expression's branch: one minute for
    "* * * * *", one day for "0 0 * * *" and "0 9 * * *", one hour for
    "0 * * * *" and for every other string. *)
Theorem next_run_period (tz : Z) (cronExpression : string) (now : Z) :
  calculateNextRun tz cronExpression
    (calculateNextRun tz cronExpression now)
  = calculateNextRun tz cronExpression now + tablePeriod cronExpression.
Proof.
  destruct (String.eqb_spec cronExpression "* * * * *") as [->|H1];
    [rewrite !every_minute; reflexivity|].
  destruct (String.eqb_spec cronExpression "0 * * * *") as [->|H2];
    [rewrite !every_hour; reflexivity|].
  destruct (String.eqb_spec cronExpression "0 0 * * *") as [->|H3].
  { rewrite (midnight tz (calculateNextRun tz "0 0 * * *" now)).
    rewrite midnight, Day_atLocal by lia.
    rewrite !atLocal_value. change (tablePeriod "0 0 * * *") with 86400000.
    unfold msPerDay. lia. }
  destruct (String.eqb_spec cronExpression "0 9 * * *") as [->|H4].
  { rewrite (nine_am tz (calculateNextRun tz "0 9 * * *" now)).
    assert (Hn : exists d, calculateNextRun tz "0 9 * * *" now
                           = atLocal tz d 9 0).
    { rewrite nine_am. destruct (9 <=? getHours tz now); eexists;
        reflexivity. }
    destruct Hn as (d & ->).
    rewrite getHours_atLocal, Day_atLocal by lia.
    cbn [Z.leb Z.compare Pos.compare Pos.compare_cont].
    rewrite !atLocal_value. change (tablePeriod "0 9 * * *") with 86400000.
    unfold msPerDay. lia. }
  assert (Hno : ~ In cronExpression recognisedPatterns)
    by (simpl; intuition congruence).
  rewrite !default_branch by exact Hno.
  unfold tablePeriod.
  rewrite (proj2 (String.eqb_neq _ _) H1), (proj2 (String.eqb_neq _ _) H2),
    (proj2 (String.eqb_neq _ _) H3), (proj2 (String.eqb_neq _ _) H4).
  reflexivity.
Qed.

(** X3: after a successful dispatch started at S of a job whose schedule
    [cron.validate] accepts, the written row is due again exactly from the
    earlier of its stored [nextRun] and S + 1 minute. *)
Theorem rerun_window (tz : Z) (cron_validate : string -> Completion bool)
    (createJob : string -> Completion JobExecutor) (w : World)
    (jobId : Z) (jobName sched : string) (elapsed : Z) (j : Job) :
  invocation createJob jobId jobName = Fulfilled elapsed ->
  Prisma.findUnique (table w) jobId = Some j ->
  cron_validate (schedule j) = Normal true ->
  exists w' j',
    executeJob tz createJob w jobId jobName sched = Resolved w' /\
    Prisma.findUnique (table w') jobId = Some j' /\
    forall later,
      shouldJobRun cron_validate j' later = true <->
      calculateNextRun tz sched (clock w + elapsed) <= later \/
      clock w + 60000 <= later.
Proof.
  intros Hi Hf Hv.
  destruct (executeJob_fulfilled tz createJob w jobId jobName sched
              elapsed j Hi Hf) as (w' & He & _ & Hf').
  exists w'. eexists. split; [exact He|]. split; [exact Hf'|].
  intros later. unfold shouldJobRun, shouldRunBasedOnCron, getTime.
  cbn [Prisma.setRunTimestamps lastRun nextRun schedule]. rewrite Hv.
  destruct (Z.leb_spec (calculateNextRun tz sched (clock w + elapsed))
              later) as [H|H].
  - split; [intros _; left; exact H | reflexivity].
  - rewrite Z.leb_le. split; [intros H'; right; lia | intros [H'|H']; lia].
Qed.

Lemma rerun_window_witness :
  let job := mkJob 1 "send email" None "0 9 * * *" true None None 0 0 in
  exists w' j',
    executeJob 0 JobFactory.createJob (mkWorld 0 [job] []) 1 "send email"
      "0 9 * * *" = Resolved w' /\
    Prisma.findUnique (table w') 1 = Some j' /\
    forall later,
      shouldJobRun (fun _ => Normal true) j' later = true <->
      calculateNextRun 0 "0 9 * * *" (0 + 2000) <= later \/
      0 + 60000 <= later.
Proof.
  cbv zeta.
  apply (rerun_window 0 (fun _ => Normal true) JobFactory.createJob
           (mkWorld 0
              [mkJob 1 "send email" None "0 9 * * *" true None None 0 0] [])
           1 "send email" "0 9 * * *" 2000
           (mkJob 1 "send email" None "0 9 * * *" true None None 0 0));
    reflexivity.
Defined.

(** X4: a tick, whether it runs to its end or stays suspended, creates,
    deletes and redefines nothing: an id is found after the tick exactly
    when it was found before, the row found has the same [id], [name],
    [description], [schedule], [isActive] and [createdAt], and the number
    of rows is unchanged. *)
Theorem tick_keeps_definitions (tz : Z)
    (cron_validate : string -> Completion bool)
    (createJob : string -> Completion JobExecutor) (t : Z) (w : World) :
  (forall x,
      match Prisma.findUnique (table w) x,
            Prisma.findUnique
              (table (worldOf (tick tz cron_validate createJob t w))) x with
      | Some j, Some j' => sameDefinition j j'
      | None, None => True
      | _, _ => False
      end) /\
  List.length (table (worldOf (tick tz cron_validate createJob t w)))
  = List.length (table w).
Proof.
  assert (H : Forall2 sameDefinition (table w)
                (table (worldOf (tick tz cron_validate createJob t w)))).
  { unfold tick, checkAndRunJobs.
    exact (runJobs_frame tz cron_validate createJob
             (Prisma.findManyActive (table (setClock t w))) t
             (setClock t w)). }
  split.
  - intros x. apply sameDefinition_lookup. exact H.
  - symmetry. apply (Forall2_length H).
Qed.

(** X5: a tick changes no row but those of the jobs it found active and
    due: looking up any other id gives the row it gave before. *)
Theorem tick_touches_only_due (tz : Z)
    (cron_validate : string -> Completion bool)
    (createJob : string -> Completion JobExecutor) (t : Z) (w : World)
    (x : Z) :
  ~ In x (map id (dueJobs cron_validate t (table w))) ->
  Prisma.findUnique
    (table (worldOf (tick tz cron_validate createJob t w))) x
  = Prisma.findUnique (table w) x.
Proof.
  intros Hx. unfold tick, checkAndRunJobs.
  exact (runJobs_untouched tz cron_validate createJob
           (Prisma.findManyActive (table (setClock t w))) t
           (setClock t w) x Hx).
Qed.

Lemma tick_touches_only_due_witness :
  Prisma.findUnique
    (table (worldOf
       (tick 0 (fun _ => Normal true) JobFactory.createJob 0
          (mkWorld 0
             [mkJob 1 "send email" None "* * * * *" true None None 0 0;
              mkJob 2 "report" None "* * * * *" false None (Some 5) 0 0]
             [])))) 2
  = Prisma.findUnique
      (table (mkWorld 0
         [mkJob 1 "send email" None "* * * * *" true None None 0 0;
          mkJob 2 "report" None "* * * * *" false None (Some 5) 0 0]
         [])) 2.
Proof.
  apply (tick_touches_only_due 0 (fun _ => Normal true)
           JobFactory.createJob 0
           (mkWorld 0
              [mkJob 1 "send email" None "* * * * *" true None None 0 0;
               mkJob 2 "report" None "* * * * *" false None (Some 5) 0 0]
              []) 2).
  simpl. intros [H|[]]. discriminate.
Defined.

(** X6: a tick that runs to its end has logged "Running job" for exactly
    the active due jobs, each once, in the order of the query. *)
Theorem tick_dispatch_order (tz : Z)
    (cron_validate : string -> Completion bool)
    (createJob : string -> Completion JobExecutor) (t : Z) (w w' : World) :
  tick tz cron_validate createJob t w = Resolved w' ->
  dispatched w'
  = (dispatched w ++ map id (dueJobs cron_validate t (table w)))%list.
Proof.
  intros H. unfold tick, checkAndRunJobs in H.
  apply runJobs_dispatched_exact in H. exact H.
Qed.

Lemma tick_dispatch_order_witness :
  let rows :=
    [mkJob 1 "send email" None "* * * * *" true None None 0 0;
     mkJob 2 "report" None "* * * * *" false None None 0 0;
     mkJob 3 "notify" None "0 9 * * *" true (Some 0) (Some 90000) 0 0;
     mkJob 4 "digest" None "0 9 * * *" true None None 0 0] in
  let w' := worldOf (tick 0 (fun _ => Normal true) JobFactory.createJob
                       30000 (mkWorld 0 rows [])) in
  dispatched w'
  = (dispatched (mkWorld 0 rows [])
     ++ map id (dueJobs (fun _ => Normal true) 30000
                  (table (mkWorld 0 rows []))))%list.
Proof.
  cbv zeta.
  apply (tick_dispatch_order 0 (fun _ => Normal true)
           JobFactory.createJob 30000).
  reflexivity.
Defined.

(** X7: jobs of a tick run one after the other.  When the invocation of
    every due job is fulfilled (after [dur j] ms for job [j]) and ids are
    unique, the tick at [t] runs to its end, its k-th due job gets as
    [lastRun] the instant [t] plus the durations of the due jobs before
    it, and the clock ends at [t] plus all the durations. *)
Theorem tick_sequential_starts (tz : Z)
    (cron_validate : string -> Completion bool)
    (createJob : string -> Completion JobExecutor)
    (dur : Job -> Z) (t : Z) (w : World) :
  NoDup (map id (table w)) ->
  (forall j, In j (dueJobs cron_validate t (table w)) ->
             invocation createJob (id j) (name j) = Fulfilled (dur j)) ->
  exists w',
    tick tz cron_validate createJob t w = Resolved w' /\
    clock w' = t + sumZ (map dur (dueJobs cron_validate t (table w))) /\
    forall k j,
      nth_error (dueJobs cron_validate t (table w)) k = Some j ->
      option_map lastRun (Prisma.findUnique (table w') (id j))
      = Some (Some (t + sumZ (map dur
                     (firstn k (dueJobs cron_validate t (table w)))))).
Proof.
  intros Hnd Hful. unfold tick, checkAndRunJobs, dueJobs in *.
  cbn [setClock table clock].
  apply (runJobs_sequential tz cron_validate createJob dur
           (Prisma.findManyActive (table w)) t (setClock t w)).
  - unfold Prisma.findManyActive.
    revert Hnd. generalize (table w). intros l.
    induction l as [|a l IH]; intros Hnd; cbn [filter map]; [constructor|].
    cbn [map] in Hnd. inversion Hnd as [|? ? Hnotin Hnd']; subst.
    destruct (isActive a); [| apply IH; exact Hnd'].
    cbn [map]. constructor; [| apply IH; exact Hnd'].
    intros Hin. apply Hnotin. apply in_map_iff in Hin.
    destruct Hin as (b & Hb & Hin). apply filter_In in Hin.
    rewrite <- Hb. apply in_map. apply Hin.
  - intros j Hj. cbn [setClock table].
    unfold Prisma.findManyActive in Hj. apply filter_In in Hj.
    destruct Hj as [Hj _]. unfold Prisma.findUnique.
    destruct (find (fun r => id r =? id j) (table w)) as [r|] eqn:Hf;
      [exists r; reflexivity|].
    pose proof (find_none _ _ Hf j Hj) as Hn. cbv beta in Hn.
    rewrite Z.eqb_refl in Hn. discriminate.
  - exact Hful.
Qed.

Lemma tick_sequential_starts_witness :
  let rows :=
    [mkJob 1 "send email" None "* * * * *" true None None 0 0;
     mkJob 2 "report" None "* * * * *" false None None 0 0;
     mkJob 3 "digest" None "0 9 * * *" true None None 0 0] in
  let always := fun _ : string => Normal true in
  exists w',
    tick 0 always JobFactory.createJob 60000 (mkWorld 0 rows [])
    = Resolved w' /\
    clock w'
    = 60000 + sumZ (map (fun _ => 2000)
                      (dueJobs always 60000 (table (mkWorld 0 rows [])))) /\
    forall k j,
      nth_error (dueJobs always 60000 (table (mkWorld 0 rows []))) k
      = Some j ->
      option_map lastRun (Prisma.findUnique (table w') (id j))
      = Some (Some (60000 + sumZ (map (fun _ => 2000)
                     (firstn k (dueJobs always 60000
                                  (table (mkWorld 0 rows [])))))))%Z.
Proof.
  cbv zeta.
  apply (tick_sequential_starts 0 (fun _ => Normal true)
           JobFactory.createJob (fun _ => 2000) 60000).
  - simpl. repeat constructor; simpl; intuition discriminate.
  - intros j Hj. simpl in Hj. destruct Hj as [<-|[<-|[]]]; reflexivity.
Defined.

(** X8: a tick runs to its end whenever the executor invocation of every
    active due job settles, fulfilled or rejected. *)
Theorem tick_completes_when_executors_settle (tz : Z)
    (cron_validate : string -> Completion bool)
    (createJob : string -> Completion JobExecutor) (t : Z) (w : World) :
  (forall j, In j (dueJobs cron_validate t (table w)) ->
             invocation createJob (id j) (name j) <> NeverSettles) ->
  exists w', tick tz cron_validate createJob t w = Resolved w'.
Proof.
  intros H. unfold tick, checkAndRunJobs.
  apply runJobs_resolves. exact H.
Qed.

Lemma tick_completes_when_executors_settle_witness :
  exists w',
    tick 0 (fun _ => Normal true) JobFactoryStrict.createJob 0
      (mkWorld 0
         [mkJob 1 "report" None "* * * * *" true None None 0 0;
          mkJob 2 "send email" None "* * * * *" true None None 0 0] [])
    = Resolved w'.
Proof.
  apply (tick_completes_when_executors_settle 0 (fun _ => Normal true)
           JobFactoryStrict.createJob 0).
  intros j Hj. simpl in Hj.
  destruct Hj as [<-|[<-|[]]]; vm_compute; discriminate.
Defined.

(** X9: when the row of a job has been deleted by the time its executor is
    fulfilled, the failing update is caught: [executeJob] returns normally,
    the table is as it was, and an error line for the job is logged. *)
Theorem dispatch_of_deleted_job_is_contained (tz : Z)
    (createJob : string -> Completion JobExecutor) (w : World)
    (jobId : Z) (jobName sched : string) (elapsed : Z) :
  invocation createJob jobId jobName = Fulfilled elapsed ->
  Prisma.findUnique (table w) jobId = None ->
  exists w' e,
    executeJob tz createJob w jobId jobName sched = Resolved w' /\
    table w' = table w /\
    clock w' = clock w + elapsed /\
    logged w' = (logged w ++ [LogExecuteError jobId e])%list.
Proof.
  intros Hi Hf.
  destruct (executeJob_row_missing tz createJob w jobId jobName sched
              elapsed Hi Hf) as (e & He).
  eexists. exists e. split; [exact He|]. repeat split.
Qed.

Lemma dispatch_of_deleted_job_is_contained_witness :
  exists w' e,
    executeJob 0 JobFactory.createJob
      (mkWorld 0 [mkJob 2 "report" None "* * * * *" true None None 0 0] [])
      1 "send email" "* * * * *" = Resolved w' /\
    table w'
    = table (mkWorld 0
        [mkJob 2 "report" None "* * * * *" true None None 0 0] []) /\
    clock w'
    = clock (mkWorld 0
        [mkJob 2 "report" None "* * * * *" true None None 0 0] []) + 2000 /\
    logged w'
    = (logged (mkWorld 0
         [mkJob 2 "report" None "* * * * *" true None None 0 0] [])
       ++ [LogExecuteError 1 e])%list.
Proof.
  apply (dispatch_of_deleted_job_is_contained 0 JobFactory.createJob
           (mkWorld 0
              [mkJob 2 "report" None "* * * * *" true None None 0 0] [])
           1 "send email" "* * * * *" 2000);
    reflexivity.
Defined.

(** X10: when no executor takes negative time, a tick keeps the run
    timestamps of every row in order: [lastRun] and [nextRun] are absent
    together, or [lastRun] is strictly earlier than [nextRun]. *)
Theorem tick_keeps_timestamps_ordered (tz : Z)
    (cron_validate : string -> Completion bool)
    (createJob : string -> Completion JobExecutor) (t : Z) (w : World) :
  (forall jobId jobName d,
      invocation createJob jobId jobName = Fulfilled d -> 0 <= d) ->
  Forall timestampsOrdered (table w) ->
  Forall timestampsOrdered
    (table (worldOf (tick tz cron_validate createJob t w))).
Proof.
  intros Hd HF. unfold tick, checkAndRunJobs.
  apply runJobs_keeps_ordered; assumption.
Qed.

Lemma tick_keeps_timestamps_ordered_witness :
  Forall timestampsOrdered
    (table (worldOf
       (tick 0 (fun _ => Normal true) JobFactory.createJob 0
          (mkWorld 0
             [mkJob 1 "send email" None "0 9 * * *" true None None 0 0;
              mkJob 2 "digest" None "* * * * *" true (Some 5) (Some 9) 0 0]
             [])))).
Proof.
  apply (tick_keeps_timestamps_ordered 0 (fun _ => Normal true)
           JobFactory.createJob 0).
  - intros jobId jobName d H. rewrite shipped_invocation in H.
    injection H as <-. lia.
  - repeat constructor.
Defined.

(** ** More on the factories *)

Module StringFacts.
Import JSString.

Lemma append_assoc (a b c : string) :
  ((a ++ b) ++ c = a ++ (b ++ c))%string.
Proof.
  induction a as [|x a IH]; [reflexivity|].
  cbn [String.append]. rewrite IH. reflexivity.
Qed.

Lemma toLowerCase_app (a b : string) :
  toLowerCase (a ++ b) = (toLowerCase a ++ toLowerCase b)%string.
Proof.
  induction a as [|c a IH]; [reflexivity|].
  cbn [String.append toLowerCase]. rewrite IH. reflexivity.
Qed.

Lemma substring_prefix (t s : string) :
  substring 0 (String.length t) s = t -> exists post, s = (t ++ post)%string.
Proof.
  revert s. induction t as [|a t IH]; intros s H.
  - exists s. reflexivity.
  - destruct s as [|c s]; [discriminate H|].
    cbn [String.length substring] in H. injection H as -> H.
    destruct (IH s H) as (post & ->). exists post. reflexivity.
Qed.

Lemma substring_decompose (s t : string) (m : nat) :
  substring m (String.length t) s = t ->
  exists pre post, s = (pre ++ t ++ post)%string.
Proof.
  revert m. induction s as [|c s IH]; intros m H.
  - exists EmptyString, EmptyString.
    destruct m, t; cbn in H; try discriminate H; reflexivity.
  - destruct m as [|m].
    + destruct (substring_prefix t (String c s) H) as (post & Hp).
      exists EmptyString, post. exact Hp.
    + cbn [substring] in H. destruct (IH m H) as (pre & post & ->).
      exists (String c pre), post. reflexivity.
Qed.

Lemma substring_app_prefix (t post : string) :
  substring 0 (String.length t) (t ++ post) = t.
Proof.
  induction t as [|a t IH]; cbn [String.length String.append substring].
  - destruct post; reflexivity.
  - rewrite IH. reflexivity.
Qed.

Lemma substring_app_mid (pre t post : string) :
  substring (String.length pre) (String.length t) (pre ++ t ++ post) = t.
Proof.
  induction pre as [|c pre IH];
    cbn [String.length String.append substring].
  - apply substring_app_prefix.
  - exact IH.
Qed.

(** [includes] is the substring relation. *)
Lemma includes_iff (s needle : string) :
  includes s needle = true <->
  exists pre post, s = (pre ++ needle ++ post)%string.
Proof.
  unfold includes. split.
  - destruct (String.index 0 needle s) as [m|] eqn:Hi; [| discriminate].
    intros _. apply index_correct1 in Hi.
    apply (substring_decompose s needle m Hi).
  - intros (pre & post & ->).
    destruct (String.index 0 needle (pre ++ needle ++ post)) as [m|] eqn:Hi;
      [reflexivity|].
    exfalso. destruct needle as [|a needle].
    + apply index_correct4 in Hi. inversion Hi.
    + apply (index_correct3 0 (String.length pre)) in Hi;
        [| discriminate | apply Nat.le_0_l].
      apply Hi. apply substring_app_mid.
Qed.

End StringFacts.

Import StringFacts.

(** X12: for the second factory, text added before and after an accepted
    job name, in any letter case, leaves it accepted. *)
Theorem strict_factory_accepts_extensions (jobName before after : string) :
  JobFactoryStrict.createJob jobName = Normal EmailJob ->
  JobFactoryStrict.createJob (before ++ jobName ++ after)
  = Normal EmailJob.
Proof.
  unfold JobFactoryStrict.createJob.
  destruct (includes (toLowerCase jobName) "email") eqn:Hi;
    [| discriminate].
  intros _. apply includes_iff in Hi. destruct Hi as (pre & post & Hi).
  assert (Hx : includes (toLowerCase (before ++ jobName ++ after)) "email"
               = true).
  { apply includes_iff.
    exists (toLowerCase before ++ pre)%string,
           (post ++ toLowerCase after)%string.
    rewrite !toLowerCase_app, Hi.
    rewrite !append_assoc. reflexivity. }
  rewrite Hx. reflexivity.
Qed.

Lemma strict_factory_accepts_extensions_witness :
  JobFactoryStrict.createJob ("Nightly " ++ "EMail" ++ " digest")
  = Normal EmailJob.
Proof.
  apply (strict_factory_accepts_extensions "EMail" "Nightly " " digest").
  reflexivity.
Defined.

(** ** The jobs API *)

Module ApiFacts.
Import SchedulerFacts.

Lemma findUnique_app (rows : list Job) (job : Job) (x : Z) :
  Prisma.findUnique (rows ++ [job]) x
  = match Prisma.findUnique rows x with
    | Some r => Some r
    | None => if id job =? x then Some job else None
    end.
Proof.
  unfold Prisma.findUnique.
  induction rows as [|r rows IH]; cbn [app find]; [reflexivity|].
  destruct (id r =? x); [reflexivity | exact IH].
Qed.

Lemma findUnique_fresh (rows : list Job) (bound : Z) :
  Forall (fun j => id j < bound) rows ->
  Prisma.findUnique rows bound = None.
Proof.
  unfold Prisma.findUnique. intros HF.
  induction HF as [|r rows Hr _ IH]; [reflexivity|].
  cbn [find]. destruct (Z.eqb_spec (id r) bound); [lia | exact IH].
Qed.

Lemma findUnique_id (rows : list Job) (x : Z) (r : Job) :
  Prisma.findUnique rows x = Some r -> In r rows /\ id r = x.
Proof.
  unfold Prisma.findUnique. intros H. apply find_some in H.
  destruct H as [Hin He]. apply Z.eqb_eq in He. tauto.
Qed.

Lemma findUnique_map (f : Job -> Job) (rows : list Job) (jobId x : Z) :
  (forall r, id (f r) = id r) ->
  Prisma.findUnique
    (map (fun r => if id r =? jobId then f r else r) rows) x
  = match Prisma.findUnique rows x with
    | Some r => Some (if x =? jobId then f r else r)
    | None => None
    end.
Proof.
  intros Hid. unfold Prisma.findUnique.
  induction rows as [|r rows IH]; [reflexivity|].
  cbn [map find].
  destruct (Z.eqb_spec (id r) jobId) as [E|E].
  - rewrite Hid. destruct (Z.eqb_spec (id r) x) as [E'|E']; [| exact IH].
    subst x. rewrite E, Z.eqb_refl. reflexivity.
  - destruct (Z.eqb_spec (id r) x) as [E'|E']; [| exact IH].
    subst x. destruct (Z.eqb_spec (id r) jobId); [contradiction|].
    reflexivity.
Qed.

Lemma findUnique_filter (rows : list Job) (jobId x : Z) :
  Prisma.findUnique (filter (fun r => negb (id r =? jobId)) rows) x
  = if x =? jobId then None else Prisma.findUnique rows x.
Proof.
  unfold Prisma.findUnique.
  induction rows as [|r rows IH]; cbn [filter find].
  - destruct (x =? jobId); reflexivity.
  - destruct (Z.eqb_spec (id r) jobId) as [E|E]; cbn [negb].
    + rewrite IH. destruct (Z.eqb_spec x jobId) as [Ex|Ex]; [reflexivity|].
      destruct (Z.eqb_spec (id r) x); [congruence | reflexivity].
    + cbn [find]. destruct (Z.eqb_spec (id r) x) as [E'|E'].
      * subst x. destruct (Z.eqb_spec (id r) jobId); [contradiction|].
        reflexivity.
      * exact IH.
Qed.

Lemma map_id_update (f : Job -> Job) (rows : list Job) (jobId : Z) :
  (forall r, id (f r) = id r) ->
  map id (map (fun r => if id r =? jobId then f r else r) rows)
  = map id rows.
Proof.
  intros Hid. induction rows as [|r rows IH]; [reflexivity|].
  cbn [map]. rewrite IH. destruct (id r =? jobId); [rewrite Hid|];
    reflexivity.
Qed.

Lemma NoDup_map_filter (p : Job -> bool) (rows : list Job) :
  NoDup (map id rows) -> NoDup (map id (filter p rows)).
Proof.
  induction rows as [|r rows IH]; intros Hnd; [constructor|].
  cbn [map] in Hnd. inversion Hnd as [|? ? Hnotin Hnd']; subst.
  cbn [filter]. destruct (p r); [| apply IH; exact Hnd'].
  cbn [map]. constructor; [| apply IH; exact Hnd'].
  intros Hin. apply Hnotin. apply in_map_iff in Hin.
  destruct Hin as (b & Hb & Hin). apply filter_In in Hin.
  rewrite <- Hb. apply in_map. apply Hin.
Qed.

Lemma Forall_bound_id (bound : Z) (rows rows' : list Job) :
  map id rows' = map id rows ->
  Forall (fun j => id j < bound) rows ->
  Forall (fun j => id j < bound) rows'.
Proof.
  intros Hm HF.
  assert (H : Forall (fun x => x < bound) (map id rows)).
  { apply Forall_map. exact HF. }
  rewrite <- Hm in H. apply Forall_map in H. exact H.
Qed.

Lemma sameDefinition_ids (rows rows' : list Job) :
  Forall2 sameDefinition rows rows' -> map id rows' = map id rows.
Proof.
  intros H. induction H as [|a b l l' Hab _ IH]; [reflexivity|].
  cbn [map]. destruct Hab as (Hid & _). rewrite Hid, IH. reflexivity.
Qed.

Lemma wellFormed_same_ids (db : Database) (rows' : list Job) :
  map id rows' = map id (jobRows db) ->
  wellFormed db ->
  wellFormed (mkDatabase rows' (idSequence db)).
Proof.
  intros Hm [Hnd Hb]. split; cbn [jobRows idSequence].
  - rewrite Hm. exact Hnd.
  - apply (Forall_bound_id _ (jobRows db)); assumption.
Qed.

Lemma create_wellFormed (db : Database) (now : Z)
    (dto : CreateJobDto.t) :
  wellFormed db -> wellFormed (snd (JobsService.create db now dto)).
Proof.
  intros [Hnd Hb]. unfold JobsService.create, PrismaJob.create.
  cbn [snd]. split; cbn [jobRows idSequence].
  - rewrite map_app. cbn [map id].
    assert (Hfresh : ~ In (idSequence db) (map id (jobRows db))).
    { intros Hin. apply in_map_iff in Hin. destruct Hin as (r & Hr & Hin).
      rewrite Forall_forall in Hb. specialize (Hb r Hin). lia. }
    clear Hb. induction (jobRows db) as [|r rows IH]; cbn [map app].
    + constructor; [intros [] | constructor].
    + cbn [map] in Hnd. inversion Hnd as [|? ? Hnotin Hnd']; subst.
      constructor.
      * intros Hin. apply in_app_or in Hin. destruct Hin as [Hin|[Hin|[]]].
        -- contradiction.
        -- apply Hfresh. left. symmetry. exact Hin.
      * apply IH; [exact Hnd'|]. intros Hin. apply Hfresh. right. exact Hin.
  - apply Forall_app. split.
    + eapply Forall_impl; [| exact Hb]. cbv beta. intros; lia.
    + constructor; [cbn [id]; lia | constructor].
Qed.

Lemma applyInput_id (data : PrismaJob.JobUpdateInput) (now : Z) (r : Job) :
  id (PrismaJob.applyInput data now r) = id r.
Proof. reflexivity. Qed.

Lemma update_wellFormed (db db' : Database) (now jobId : Z)
    (dto : UpdateJobDto.t) (r : Job) :
  wellFormed db ->
  JobsService.update db now jobId dto = Normal (r, db') ->
  wellFormed db'.
Proof.
  intros Hwf. unfold JobsService.update, PrismaJob.update. cbv zeta.
  destruct (Prisma.findUnique (jobRows db) jobId); [| discriminate].
  intros H. injection H as _ <-.
  apply wellFormed_same_ids; [| exact Hwf].
  apply map_id_update. intros; reflexivity.
Qed.

Lemma remove_wellFormed (db db' : Database) (jobId : Z) (r : Job) :
  wellFormed db ->
  JobsService.remove db jobId = Normal (r, db') ->
  wellFormed db'.
Proof.
  intros [Hnd Hb]. unfold JobsService.remove, PrismaJob.delete.
  destruct (Prisma.findUnique (jobRows db) jobId); [| discriminate].
  intros H. injection H as _ <-. split; cbn [jobRows idSequence].
  - apply NoDup_map_filter. exact Hnd.
  - rewrite Forall_forall in *. intros x Hx. apply filter_In in Hx.
    apply Hb. apply Hx.
Qed.

End ApiFacts.

Import ApiFacts.

(** X13: while the id sequence has not passed the limit of the 32-bit
    column, [create] in a well-formed table gives the new job the next id
    of the sequence and no run timestamps and never stores an empty
    description; afterwards [findOne] on its id returns it, [findOne] on
    any other id is as before, and [findAll] holds the new row and the
    rows it held before, one row more, in whatever order. *)
Theorem create_then_findOne (db : Database) (now : Z)
    (dto : CreateJobDto.t) :
  wellFormed db ->
  idSequence db <= 2147483647 ->
  let job := fst (JobsService.create db now dto) in
  let db' := snd (JobsService.create db now dto) in
  id job = idSequence db /\
  lastRun job = None /\ nextRun job = None /\
  description job <> Some "" /\
  JobsService.findOne db' (id job) = Some job /\
  (forall x, x <> id job ->
             JobsService.findOne db' x = JobsService.findOne db x) /\
  (forall r, In r (JobsService.findAll db') <->
             r = job \/ In r (JobsService.findAll db)) /\
  List.length (JobsService.findAll db')
  = S (List.length (JobsService.findAll db)).
Proof.
  intros [_ Hb] _. cbv zeta.
  unfold JobsService.create, PrismaJob.create, JobsService.findOne,
    JobsService.findAll, PrismaJob.findMany.
  cbn [fst snd jobRows id lastRun nextRun description].
  split; [reflexivity|]. split; [reflexivity|]. split; [reflexivity|].
  split; [| split; [| split; [| split]]].
  - unfold JobsService.orNull.
    destruct (CreateJobDto.description dto) as [s|]; [| discriminate].
    destruct (String.eqb_spec s ""); [discriminate | congruence].
  - rewrite findUnique_app, (findUnique_fresh _ _ Hb).
    cbn [id]. rewrite Z.eqb_refl. reflexivity.
  - intros x Hx. rewrite findUnique_app. cbn [id].
    destruct (Prisma.findUnique (jobRows db) x); [reflexivity|].
    destruct (Z.eqb_spec (idSequence db) x); [congruence | reflexivity].
  - intros r. rewrite in_app_iff. cbn [In]. intuition congruence.
  - rewrite length_app. cbn [List.length]. lia.
Qed.

Lemma create_then_findOne_witness :
  let db := mkDatabase
              [mkJob 1 "send email" None "* * * * *" true None None 0 0] 2 in
  let dto := CreateJobDto.mk "Test Job" (Some "") "0 9 * * *" None in
  let job := fst (JobsService.create db 5 dto) in
  let db' := snd (JobsService.create db 5 dto) in
  id job = idSequence db /\
  lastRun job = None /\ nextRun job = None /\
  description job <> Some "" /\
  JobsService.findOne db' (id job) = Some job /\
  (forall x, x <> id job ->
             JobsService.findOne db' x = JobsService.findOne db x) /\
  (forall r, In r (JobsService.findAll db') <->
             r = job \/ In r (JobsService.findAll db)) /\
  List.length (JobsService.findAll db')
  = S (List.length (JobsService.findAll db)).
Proof.
  apply (create_then_findOne
           (mkDatabase
              [mkJob 1 "send email" None "* * * * *" true None None 0 0] 2)
           5 (CreateJobDto.mk "Test Job" (Some "") "0 9 * * *" None)).
  - split; simpl.
    + repeat constructor. simpl. tauto.
    + repeat constructor.
  - simpl. lia.
Defined.

(** X14: [create], [update] and [remove] keep the table well formed: ids
    stay unique and below the next value of the sequence. *)
Theorem api_keeps_table_well_formed (db : Database) (now : Z) :
  wellFormed db ->
  (forall dto, wellFormed (snd (JobsService.create db now dto))) /\
  (forall jobId dto r db',
      JobsService.update db now jobId dto = Normal (r, db') ->
      wellFormed db') /\
  (forall jobId r db',
      JobsService.remove db jobId = Normal (r, db') -> wellFormed db').
Proof.
  intros Hwf. split; [| split].
  - intros dto. apply create_wellFormed. exact Hwf.
  - intros jobId dto r db' H. apply (update_wellFormed db db' now jobId dto r);
      assumption.
  - intros jobId r db' H. apply (remove_wellFormed db db' jobId r);
      assumption.
Qed.

Lemma api_keeps_table_well_formed_witness :
  let db := mkDatabase
              [mkJob 1 "send email" None "* * * * *" true None None 0 0;
               mkJob 4 "report" None "0 9 * * *" false None None 0 0] 7 in
  (forall dto, wellFormed (snd (JobsService.create db 9 dto))) /\
  (forall jobId dto r db',
      JobsService.update db 9 jobId dto = Normal (r, db') ->
      wellFormed db') /\
  (forall jobId r db',
      JobsService.remove db jobId = Normal (r, db') -> wellFormed db').
Proof.
  apply (api_keeps_table_well_formed
           (mkDatabase
              [mkJob 1 "send email" None "* * * * *" true None None 0 0;
               mkJob 4 "report" None "0 9 * * *" false None None 0 0] 7) 9).
  split; simpl.
  - repeat constructor; simpl; intuition discriminate.
  - repeat constructor.
Defined.

(** X15: a successful [update] returns the stored row, writes only the
    properties present in the DTO (an absent one keeps its value), never
    touches [id], [lastRun], [nextRun] or [createdAt], and leaves the row
    of every other id as it was. *)
Theorem update_writes_only_given_fields (db db' : Database) (now jobId : Z)
    (dto : UpdateJobDto.t) (job' : Job) :
  JobsService.update db now jobId dto = Normal (job', db') ->
  exists job,
    JobsService.findOne db jobId = Some job /\
    JobsService.findOne db' jobId = Some job' /\
    id job' = id job /\ lastRun job' = lastRun job /\
    nextRun job' = nextRun job /\ createdAt job' = createdAt job /\
    name job' = match UpdateJobDto.name dto with
                | Some v => v | None => name job end /\
    description job' = match UpdateJobDto.description dto with
                       | Some v => Some v | None => description job end /\
    schedule job' = match UpdateJobDto.schedule dto with
                    | Some v => v | None => schedule job end /\
    isActive job' = match UpdateJobDto.isActive dto with
                    | Some v => v | None => isActive job end /\
    (forall x, x <> jobId ->
               JobsService.findOne db' x = JobsService.findOne db x).
Proof.
  unfold JobsService.update, PrismaJob.update, JobsService.findOne,
    JobsService.findAll, PrismaJob.findMany. cbv zeta.
  destruct (Prisma.findUnique (jobRows db) jobId) as [job|] eqn:Hf;
    [| discriminate].
  intros H. injection H as <- <-. exists job. cbn [jobRows].
  split; [reflexivity|]. split.
  - rewrite findUnique_map by (intros; reflexivity).
    rewrite Hf, Z.eqb_refl. reflexivity.
  - cbn [PrismaJob.applyInput id lastRun nextRun createdAt name description
         schedule isActive PrismaJob.setName PrismaJob.setDescription
         PrismaJob.setSchedule PrismaJob.setIsActive PrismaJob.orKeep].
    repeat (split; [reflexivity|]).
    intros x Hx. rewrite findUnique_map by (intros; reflexivity).
    destruct (Prisma.findUnique (jobRows db) x); [| reflexivity].
    destruct (Z.eqb_spec x jobId); [contradiction | reflexivity].
Qed.

Lemma update_writes_only_given_fields_witness :
  let db := mkDatabase
              [mkJob 1 "Original Name" None "0 9 * * *" true
                     (Some 10) (Some 20) 0 0] 2 in
  let dto := UpdateJobDto.mk (Some "Updated Name") None None (Some false) in
  let job' := mkJob 1 "Updated Name" None "0 9 * * *" false
                    (Some 10) (Some 20) 0 30 in
  let db' := mkDatabase [job'] 2 in
  exists job,
    JobsService.findOne db 1 = Some job /\
    JobsService.findOne db' 1 = Some job' /\
    id job' = id job /\ lastRun job' = lastRun job /\
    nextRun job' = nextRun job /\ createdAt job' = createdAt job /\
    name job' = match UpdateJobDto.name dto with
                | Some v => v | None => name job end /\
    description job' = match UpdateJobDto.description dto with
                       | Some v => Some v | None => description job end /\
    schedule job' = match UpdateJobDto.schedule dto with
                    | Some v => v | None => schedule job end /\
    isActive job' = match UpdateJobDto.isActive dto with
                    | Some v => v | None => isActive job end /\
    (forall x, x <> 1 ->
               JobsService.findOne db' x = JobsService.findOne db x).
Proof.
  cbv zeta.
  apply (update_writes_only_given_fields
           (mkDatabase
              [mkJob 1 "Original Name" None "0 9 * * *" true
                     (Some 10) (Some 20) 0 0] 2)
           (mkDatabase
              [mkJob 1 "Updated Name" None "0 9 * * *" false
                     (Some 10) (Some 20) 0 30] 2)
           30 1
           (UpdateJobDto.mk (Some "Updated Name") None None (Some false))).
  reflexivity.
Defined.

(** X17: a successful [remove] returns the row that was stored, after
    which [findOne] on its id finds nothing while every other id is found
    as before; the sequence is not moved back, so in a well-formed table a
    later [create] never reuses the removed id. *)
Theorem remove_then_findOne (db db' : Database) (jobId : Z) (job : Job)
    (now : Z) (dto : CreateJobDto.t) :
  wellFormed db ->
  JobsService.remove db jobId = Normal (job, db') ->
  JobsService.findOne db jobId = Some job /\
  JobsService.findOne db' jobId = None /\
  (forall x, x <> jobId ->
             JobsService.findOne db' x = JobsService.findOne db x) /\
  id (fst (JobsService.create db' now dto)) <> jobId.
Proof.
  intros [_ Hb]. unfold JobsService.remove, PrismaJob.delete,
    JobsService.findOne.
  destruct (Prisma.findUnique (jobRows db) jobId) as [r|] eqn:Hf;
    [| discriminate].
  intros H. injection H as <- <-. cbn [jobRows].
  split; [reflexivity|]. split; [| split].
  - rewrite findUnique_filter, Z.eqb_refl. reflexivity.
  - intros x Hx. rewrite findUnique_filter.
    destruct (Z.eqb_spec x jobId); [contradiction | reflexivity].
  - unfold JobsService.create, PrismaJob.create. cbn [fst id idSequence].
    apply findUnique_id in Hf. destruct Hf as [Hin Hid].
    rewrite Forall_forall in Hb. specialize (Hb r Hin). lia.
Qed.

Lemma remove_then_findOne_witness :
  let kept := mkJob 1 "send email" None "* * * * *" true None None 0 0 in
  let gone := mkJob 4 "Job to Delete" None "0 9 * * *" true None None 0 0 in
  let db := mkDatabase [kept; gone] 5 in
  let db' := mkDatabase [kept] 5 in
  let dto := CreateJobDto.mk "Again" None "0 9 * * *" None in
  JobsService.findOne db 4 = Some gone /\
  JobsService.findOne db' 4 = None /\
  (forall x, x <> 4 ->
             JobsService.findOne db' x = JobsService.findOne db x) /\
  id (fst (JobsService.create db' 9 dto)) <> 4.
Proof.
  cbv zeta.
  apply (remove_then_findOne
           (mkDatabase
              [mkJob 1 "send email" None "* * * * *" true None None 0 0;
               mkJob 4 "Job to Delete" None "0 9 * * *" true None None 0 0]
              5)
           (mkDatabase
              [mkJob 1 "send email" None "* * * * *" true None None 0 0] 5)
           4
           (mkJob 4 "Job to Delete" None "0 9 * * *" true None None 0 0)
           9 (CreateJobDto.mk "Again" None "0 9 * * *" None)).
  - split; simpl.
    + repeat constructor; simpl; intuition discriminate.
    + repeat constructor.
  - reflexivity.
Defined.

(** ** The API and the scheduler together *)

(** X18: a job created without [isActive: false] is dispatched by the next
    tick that runs to its end, whatever its schedule string. *)
Theorem created_job_runs_on_next_tick (tz : Z)
    (cron_validate : string -> Completion bool)
    (createJob : string -> Completion JobExecutor)
    (db : Database) (now : Z) (dto : CreateJobDto.t)
    (t : Z) (entries : list LogEntry) (w' : World) :
  CreateJobDto.isActive dto <> Some false ->
  tick tz cron_validate createJob t
       (mkWorld now (jobRows (snd (JobsService.create db now dto))) entries)
  = Resolved w' ->
  In (id (fst (JobsService.create db now dto))) (dispatched w').
Proof.
  intros Hactive Htick. unfold tick, checkAndRunJobs in Htick.
  apply runJobs_dispatches_due in Htick. destruct Htick as [_ Hdue].
  apply Hdue.
  - cbn [setClock table]. unfold Prisma.findManyActive.
    apply filter_In. split.
    + unfold JobsService.create, PrismaJob.create. cbn [fst snd jobRows].
      apply in_or_app. right. left. reflexivity.
    + unfold JobsService.create, PrismaJob.create. cbn [fst isActive].
      destruct (CreateJobDto.isActive dto) as [[|]|];
        [reflexivity | congruence | reflexivity].
  - reflexivity.
Qed.

Lemma created_job_runs_on_next_tick_witness :
  In (id (fst (JobsService.create (mkDatabase [] 1) 5
                 (CreateJobDto.mk "Database Test Job" None "* * * * *"
                                  None))))
     (dispatched
        (mkWorld 62000
           [mkJob 1 "Database Test Job" None "* * * * *" true
                  (Some 60000) (Some 122000) 5 62000]
           [LogRunning 1 "Database Test Job"; LogCompleted 1 122000])).
Proof.
  apply (created_job_runs_on_next_tick 0 (fun _ => Normal true)
           JobFactory.createJob (mkDatabase [] 1) 5
           (CreateJobDto.mk "Database Test Job" None "* * * * *" None)
           60000 []).
  - discriminate.
  - reflexivity.
Defined.

(** X19: once [remove] has succeeded, no tick over the resulting table
    dispatches the removed id. *)
Theorem removed_job_is_never_dispatched (tz : Z)
    (cron_validate : string -> Completion bool)
    (createJob : string -> Completion JobExecutor)
    (db db' : Database) (jobId : Z) (job : Job)
    (t now : Z) (entries : list LogEntry) :
  JobsService.remove db jobId = Normal (job, db') ->
  ~ In jobId (dispatched (mkWorld now (jobRows db') entries)) ->
  ~ In jobId
      (dispatched
         (worldOf (tick tz cron_validate createJob t
                     (mkWorld now (jobRows db') entries)))).
Proof.
  unfold JobsService.remove, PrismaJob.delete.
  destruct (Prisma.findUnique (jobRows db) jobId); [| discriminate].
  intros H Hbefore Hin. injection H as _ <-.
  unfold tick, checkAndRunJobs in Hin.
  apply runJobs_dispatched_among in Hin.
  destruct Hin as [Hin|Hin]; [exact (Hbefore Hin)|].
  cbn [setClock table jobRows] in Hin.
  apply in_map_iff in Hin. destruct Hin as (r & Hid & Hr).
  unfold Prisma.findManyActive in Hr.
  apply filter_In in Hr. destruct Hr as [Hr _].
  apply filter_In in Hr. destruct Hr as [_ Hr].
  rewrite Hid, Z.eqb_refl in Hr. discriminate.
Qed.

Lemma removed_job_is_never_dispatched_witness :
  ~ In 4
      (dispatched
         (worldOf (tick 0 (fun _ => Normal true) JobFactory.createJob 60000
                     (mkWorld 0
                        (jobRows
                           (mkDatabase
                              [mkJob 1 "send email" None "* * * * *" true
                                     None None 0 0] 5))
                        [])))).
Proof.
  apply (removed_job_is_never_dispatched 0 (fun _ => Normal true)
           JobFactory.createJob
           (mkDatabase
              [mkJob 1 "send email" None "* * * * *" true None None 0 0;
               mkJob 4 "Job to Delete" None "0 9 * * *" true None None 0 0]
              5)
           (mkDatabase
              [mkJob 1 "send email" None "* * * * *" true None None 0 0] 5)
           4
           (mkJob 4 "Job to Delete" None "0 9 * * *" true None None 0 0)
           60000 0 []).
  - reflexivity.
  - simpl. intros [].
Defined.

(** X20: once [update] has set [isActive] to false, no tick over the
    resulting table dispatches that job, whatever its run timestamps. *)
Theorem deactivated_job_is_not_dispatched (tz : Z)
    (cron_validate : string -> Completion bool)
    (createJob : string -> Completion JobExecutor)
    (db db' : Database) (when jobId : Z) (dto : UpdateJobDto.t) (job' : Job)
    (t now : Z) (entries : list LogEntry) :
  JobsService.update db when jobId dto = Normal (job', db') ->
  UpdateJobDto.isActive dto = Some false ->
  ~ In jobId (dispatched (mkWorld now (jobRows db') entries)) ->
  ~ In jobId
      (dispatched
         (worldOf (tick tz cron_validate createJob t
                     (mkWorld now (jobRows db') entries)))).
Proof.
  unfold JobsService.update, PrismaJob.update. cbv zeta.
  destruct (Prisma.findUnique (jobRows db) jobId); [| discriminate].
  intros H Hoff Hbefore Hin. injection H as _ <-.
  unfold tick, checkAndRunJobs in Hin.
  apply runJobs_dispatched_among in Hin.
  destruct Hin as [Hin|Hin]; [exact (Hbefore Hin)|].
  cbn [setClock table jobRows] in Hin.
  apply in_map_iff in Hin. destruct Hin as (r & Hid & Hr).
  unfold Prisma.findManyActive in Hr.
  apply filter_In in Hr. destruct Hr as [Hr Hon].
  apply in_map_iff in Hr. destruct Hr as (r0 & Hr0 & _).
  destruct (Z.eqb_spec (id r0) jobId) as [E|E].
  - subst r. cbn [PrismaJob.applyInput isActive PrismaJob.setIsActive
                   PrismaJob.orKeep] in Hon.
    rewrite Hoff in Hon. discriminate.
  - subst r. contradiction.
Qed.

Lemma deactivated_job_is_not_dispatched_witness :
  ~ In 1
      (dispatched
         (worldOf (tick 0 (fun _ => Normal true) JobFactory.createJob 60000
                     (mkWorld 0
                        (jobRows
                           (mkDatabase
                              [mkJob 1 "Updated Name" None "0 9 * * *" false
                                     None None 0 30] 2))
                        [])))).
Proof.
  apply (deactivated_job_is_not_dispatched 0 (fun _ => Normal true)
           JobFactory.createJob
           (mkDatabase
              [mkJob 1 "Original Name" None "0 9 * * *" true
                     None None 0 0] 2)
           (mkDatabase
              [mkJob 1 "Updated Name" None "0 9 * * *" false
                     None None 0 30] 2)
           30 1
           (UpdateJobDto.mk (Some "Updated Name") None None (Some false))
           (mkJob 1 "Updated Name" None "0 9 * * *" false None None 0 30)
           60000 0 []).
  - reflexivity.
  - reflexivity.
  - simpl. intros [].
Defined.

(** X21: a tick keeps the table well formed for the API: after it, ids are
    still unique and below the next value of the sequence. *)
Theorem tick_keeps_table_well_formed (tz : Z)
    (cron_validate : string -> Completion bool)
    (createJob : string -> Completion JobExecutor)
    (t : Z) (w : World) (next : Z) :
  wellFormed (mkDatabase (table w) next) ->
  wellFormed
    (mkDatabase (table (worldOf (tick tz cron_validate createJob t w)))
                next).
Proof.
  intros Hwf.
  apply (wellFormed_same_ids (mkDatabase (table w) next)); [| exact Hwf].
  cbn [jobRows]. apply sameDefinition_ids. unfold tick, checkAndRunJobs.
  exact (runJobs_frame tz cron_validate createJob
           (Prisma.findManyActive (table (setClock t w))) t
           (setClock t w)).
Qed.

Lemma tick_keeps_table_well_formed_witness :
  wellFormed
    (mkDatabase
       (table (worldOf
          (tick 0 (fun _ => Normal true) JobFactory.createJob 0
             (mkWorld 0
                [mkJob 1 "send email" None "* * * * *" true None None 0 0;
                 mkJob 4 "report" None "0 9 * * *" false None None 0 0]
                []))))
       7).
Proof.
  apply (tick_keeps_table_well_formed 0 (fun _ => Normal true)
           JobFactory.createJob 0
           (mkWorld 0
              [mkJob 1 "send email" None "* * * * *" true None None 0 0;
               mkJob 4 "report" None "0 9 * * *" false None None 0 0] [])
           7).
  split; simpl.
  - repeat constructor; simpl; intuition discriminate.
  - repeat constructor.
Defined.

(** X22: [create], [update] and [remove] keep the run timestamps of every
    row in order: the API never writes [lastRun] or [nextRun], and a new
    row has neither. *)
Theorem api_keeps_timestamps_ordered (db : Database) (now : Z) :
  Forall timestampsOrdered (jobRows db) ->
  (forall dto,
      Forall timestampsOrdered
        (jobRows (snd (JobsService.create db now dto)))) /\
  (forall jobId dto r db',
      JobsService.update db now jobId dto = Normal (r, db') ->
      Forall timestampsOrdered (jobRows db')) /\
  (forall jobId r db',
      JobsService.remove db jobId = Normal (r, db') ->
      Forall timestampsOrdered (jobRows db')).
Proof.
  intros HF. split; [| split].
  - intros dto. unfold JobsService.create, PrismaJob.create.
    cbn [snd jobRows]. apply Forall_app. split; [exact HF|].
    constructor; [exact I | constructor].
  - intros jobId dto r db'.
    unfold JobsService.update, PrismaJob.update. cbv zeta.
    destruct (Prisma.findUnique (jobRows db) jobId); [| discriminate].
    intros H. injection H as _ <-. cbn [jobRows].
    induction HF as [|a l Ha _ IH]; cbn [map]; constructor; [| exact IH].
    destruct (id a =? jobId); exact Ha.
  - intros jobId r db'. unfold JobsService.remove, PrismaJob.delete.
    destruct (Prisma.findUnique (jobRows db) jobId); [| discriminate].
    intros H. injection H as _ <-. cbn [jobRows].
    rewrite Forall_forall in *. intros x Hx. apply filter_In in Hx.
    apply HF. apply Hx.
Qed.

Lemma api_keeps_timestamps_ordered_witness :
  let db := mkDatabase
              [mkJob 1 "send email" None "* * * * *" true
                     (Some 10) (Some 70) 0 0;
               mkJob 4 "report" None "0 9 * * *" false None None 0 0] 7 in
  (forall dto,
      Forall timestampsOrdered
        (jobRows (snd (JobsService.create db 9 dto)))) /\
  (forall jobId dto r db',
      JobsService.update db 9 jobId dto = Normal (r, db') ->
      Forall timestampsOrdered (jobRows db')) /\
  (forall jobId r db',
      JobsService.remove db jobId = Normal (r, db') ->
      Forall timestampsOrdered (jobRows db')).
Proof.
  apply (api_keeps_timestamps_ordered
           (mkDatabase
              [mkJob 1 "send email" None "* * * * *" true
                     (Some 10) (Some 70) 0 0;
               mkJob 4 "report" None "0 9 * * *" false None None 0 0] 7) 9).
  simpl. repeat constructor.
Defined.

(** X23: the selector is monotone in time: a job that is due at some
    instant is due at every later instant as long as its row is not
    written. *)
Theorem due_stays_due (cron_validate : string -> Completion bool)
    (job : Job) (now later : Z) :
  now <= later ->
  shouldJobRun cron_validate job now = true ->
  shouldJobRun cron_validate job later = true.
Proof.
  unfold shouldJobRun, shouldRunBasedOnCron, getTime. intros Hle.
  destruct (lastRun job) as [last|]; [| reflexivity].
  destruct (match nextRun job with
            | Some next => next <=? now
            | None => false
            end) eqn:Hn.
  - intros _. destruct (nextRun job) as [next|]; [| discriminate].
    apply Z.leb_le in Hn.
    destruct (Z.leb_spec next later); [reflexivity | lia].
  - destruct (cron_validate (schedule job)) as [[|]|]; try discriminate.
    rewrite Z.leb_le. intros Hm.
    destruct (match nextRun job with
              | Some next => next <=? later
              | None => false
              end); [reflexivity|].
    apply Z.leb_le. lia.
Qed.

Lemma due_stays_due_witness :
  shouldJobRun (fun _ => Normal true)
    (mkJob 3 "notify" None "0 9 * * *" true (Some 0) (Some 90000) 0 0)
    120000 = true.
Proof.
  apply (due_stays_due (fun _ => Normal true)
           (mkJob 3 "notify" None "0 9 * * *" true (Some 0) (Some 90000)
                  0 0) 60000 120000).
  - lia.
  - reflexivity.
Defined.
